(** * Sidebar overrides of the exam portal admin pages

    A model of [static/js/admin-overrides.js]: the two [DOMContentLoaded]
    listeners that prune entries of the admin sidebar, written against an
    explicit DOM interface, together with a concrete DOM on which the
    listeners run. *)

From Stdlib Require Import Ascii String.
From stdpp Require Import base strings list gmap sorting.

#[local] Set Warnings "-clear-no-such-hyp".

Local Open Scope string_scope.
Local Open Scope list_scope.

(** ** Strings

    Text is modelled as a sequence of code units below 256 (the Latin-1
    range of a JavaScript string).  On that range [String.prototype.trim]
    and [String.prototype.toLowerCase] are given here unit by unit. *)

Module Js.

(** WhiteSpace and LineTerminator code units below 256: TAB, LF, VT, FF, CR,
    SP and NBSP. *)
Definition is_whitespace (c : ascii) : bool :=
  let n := nat_of_ascii c in
  (((9 <=? n) && (n <=? 13)) || (n =? 32) || (n =? 160))%nat.

(** Upper-case letters below 256: A-Z, and the Latin-1 letters U+00C0 to
    U+00DE without the multiplication sign U+00D7. *)
Definition is_upper (c : ascii) : bool :=
  let n := nat_of_ascii c in
  (((65 <=? n) && (n <=? 90))
   || ((192 <=? n) && (n <=? 214))
   || ((216 <=? n) && (n <=? 222)))%nat.

Definition lower_char (c : ascii) : ascii :=
  if is_upper c then ascii_of_nat (nat_of_ascii c + 32) else c.

Fixpoint toLowerCase (s : string) : string :=
  match s with
  | EmptyString => EmptyString
  | String c s' => String (lower_char c) (toLowerCase s')
  end.

Fixpoint trimStart (s : string) : string :=
  match s with
  | EmptyString => EmptyString
  | String c s' => if is_whitespace c then trimStart s' else s
  end.

Fixpoint trimEnd (s : string) : string :=
  match s with
  | EmptyString => EmptyString
  | String c s' =>
      match trimEnd s' with
      | EmptyString => if is_whitespace c then EmptyString else String c EmptyString
      | t => String c t
      end
  end.

Definition trim (s : string) : string := trimEnd (trimStart s).

(** Every code unit of [s] is white space. *)
Fixpoint blank (s : string) : bool :=
  match s with
  | EmptyString => true
  | String c s' => is_whitespace c && blank s'
  end.

End Js.

(** ** Computations that mutate a store and may throw

    A JavaScript statement run on a store [S] ends normally with a value or
    abruptly with a thrown value; the mutations made before a throw stay. *)

Definition exn := string.

Inductive outcome (A : Type) : Type :=
| Normal (a : A)
| Thrown (e : exn).
Arguments Normal {A} a.
Arguments Thrown {A} e.

Definition M (S A : Type) : Type := S -> outcome A * S.

Definition ret {S A} (a : A) : M S A := fun s => (Normal a, s).

Definition throw {S A} (e : exn) : M S A := fun s => (Thrown e, s).

Definition bind {S A B} (m : M S A) (k : A -> M S B) : M S B :=
  fun s =>
    match m s with
    | (Normal a, s') => k a s'
    | (Thrown e, s') => (Thrown e, s')
    end.

Declare Scope js_scope.
Delimit Scope js_scope with js.
Notation "x <- m ;; k" := (bind m (fun x => k))
  (at level 100, m at next level, right associativity) : js_scope.
Notation "m ;; k" := (bind m (fun _ => k))
  (at level 100, right associativity) : js_scope.
Local Open Scope js_scope.

(** [try { body } catch (e) { handler e }] where the handler cannot throw. *)
Definition try_catch {S} (body : M S unit) (handler : exn -> S -> S) : M S unit :=
  fun s =>
    match body s with
    | (Normal _, s') => (Normal tt, s')
    | (Thrown e, s') => (Normal tt, handler e s')
    end.

(** [list.forEach(f)] over a static list: a throwing callback ends the loop. *)
Fixpoint forEach {S A} (l : list A) (f : A -> M S unit) : M S unit :=
  match l with
  | [] => ret tt
  | x :: l' => f x ;; forEach l' f
  end.

(** [Array.prototype.find]: the first element on which the predicate holds. *)
Fixpoint array_find {S A} (l : list A) (f : A -> M S bool) : M S (option A) :=
  match l with
  | [] => ret None
  | x :: l' => b <- f x ;; if b then ret (Some x) else array_find l' f
  end.

(** ** The DOM interface used by the script *)

(** The selectors the script uses: a type or class selector, alone or under
    a descendant combinator. *)
Inductive simple_selector : Type :=
| ByType (localName : string)
| ByClass (className : string).

Inductive selector : Type :=
| Simple (s : simple_selector)
| Descendant (ancestor s : simple_selector).

(** What the script calls on [document], on elements and on [console].
    [S] is the store of the page, [R] the type of element references. *)
Record DomApi (S R : Type) : Type := {
  querySelectorAll : selector -> M S (list R);
  querySelector : selector -> M S (option R);
  textContent : R -> M S string;
  closest : simple_selector -> R -> M S (option R);
  remove : R -> M S unit;
  nextElementSibling : R -> M S (option R);
  classList_contains : R -> string -> M S bool;
  console_warn : string -> exn -> S -> S
}.
Arguments querySelectorAll {S R}.
Arguments querySelector {S R}.
Arguments textContent {S R}.
Arguments closest {S R}.
Arguments remove {S R}.
Arguments nextElementSibling {S R}.
Arguments classList_contains {S R}.
Arguments console_warn {S R}.

(** What [addItem] alone calls. *)
Record DomBuilder (S R : Type) : Type := {
  createElement : string -> M S R;
  set_className : R -> string -> M S unit;
  set_innerHTML : R -> string -> M S unit;
  appendChild : R -> R -> M S unit
}.
Arguments createElement {S R}.
Arguments set_className {S R}.
Arguments set_innerHTML {S R}.
Arguments appendChild {S R}.

(** ** The script *)

Section Script.

Context {S R : Type}.
Variable dom : DomApi S R.
Variable builder : DomBuilder S R.

Definition sidebar_anchors : selector :=
  Descendant (ByClass "nav-sidebar") (ByType "a").

Definition sidebar_headers : selector :=
  Descendant (ByClass "nav-sidebar") (ByClass "nav-header").

Definition dquote : string := String (ascii_of_nat 34) EmptyString.
Definition newline : string := String (ascii_of_nat 10) EmptyString.

(** The template literal assigned to [li.innerHTML] in [addItem]. *)
Definition item_html (text href icon : string) : string :=
  ("<a href=" ++ dquote ++ href ++ dquote
  ++ " class=" ++ dquote ++ "nav-link" ++ dquote ++ ">" ++ newline
  ++ "          <i class=" ++ dquote ++ "nav-icon " ++ icon ++ dquote
  ++ "></i>" ++ newline
  ++ "          <p>" ++ text ++ "</p>" ++ newline
  ++ "        </a>")%string.

(** [function addItem(text, href, icon='fas fa-file-import')], closed over
    the variable [ul] of the first listener. *)
Definition addItem (ul : option R) (text href : string) (icon : option string)
  : M S unit :=
  let icon := default "fas fa-file-import" icon in
  li <- createElement builder "li" ;;
  set_className builder li "nav-item" ;;
  set_innerHTML builder li (item_html text href icon) ;;
  match ul with
  | Some ul => appendChild builder ul li
  | None => throw "TypeError: ul is null"
  end.

(** Lines 5-9: the callback of the first [forEach]. *)
Definition remove_if_dashboard_or_groups (a : R) : M S unit :=
  t <- textContent dom a ;;
  let t := Js.toLowerCase (Js.trim t) in
  if (t =? "dashboard") || (t =? "groups") then
    li <- closest dom (ByType "li") a ;;
    match li with
    | Some li => remove dom li
    | None => ret tt
    end
  else ret tt.

(** Lines 4-10: remove Dashboard and Groups from the sidebar. *)
Definition remove_dashboard_and_groups : M S unit :=
  anchors <- querySelectorAll dom sidebar_anchors ;;
  forEach anchors remove_if_dashboard_or_groups.

(** Lines 13-19: find the list of the Exams section. *)
Definition find_exams_ul : M S (option R) :=
  headers <- querySelectorAll dom sidebar_headers ;;
  examsHeader <- array_find headers (fun h =>
    t <- textContent dom h ;;
    ret (Js.toLowerCase (Js.trim t) =? "exams")) ;;
  ul <- match examsHeader with
        | Some h => nextElementSibling dom h
        | None => ret None
        end ;;
  is_treeview <- match ul with
                 | Some u => classList_contains dom u "nav-treeview"
                 | None => ret false
                 end ;;
  if negb is_treeview then querySelector dom (Simple (ByClass "nav-sidebar"))
  else ret ul.

(** The body of the [try] block of the first listener. *)
Definition first_body : M S unit :=
  remove_dashboard_and_groups ;;
  ul <- find_exams_ul ;;
  let addItem := addItem ul in
  ret tt.

Definition warn_failure (e : exn) : S -> S :=
  console_warn dom "Sidebar customization failed" e.

(** The first listener (lines 1-37). *)
Definition first_listener : M S unit := try_catch first_body warn_failure.

(** Lines 42-46: the callback of the second [forEach]. *)
Definition remove_if_dashboard (a : R) : M S unit :=
  t <- textContent dom a ;;
  let t := Js.toLowerCase (Js.trim t) in
  if t =? "dashboard" then
    li <- closest dom (ByType "li") a ;;
    match li with
    | Some li => remove dom li
    | None => ret tt
    end
  else ret tt.

(** Lines 41-47: remove Dashboard from the sidebar. *)
Definition remove_dashboard : M S unit :=
  anchors <- querySelectorAll dom sidebar_anchors ;;
  forEach anchors remove_if_dashboard.

Definition second_body : M S unit := remove_dashboard.

(** The second listener (lines 38-51). *)
Definition second_listener : M S unit := try_catch second_body warn_failure.

(** The first listener with the section locator and [addItem] taken out. *)
Definition first_listener_pruner_only : M S unit :=
  try_catch remove_dashboard_and_groups warn_failure.

(** *** Event listeners *)

(** The listeners registered on [document], in registration order. *)
Definition listeners : Type := list (string * M S unit).

Definition addEventListener (type : string) (f : M S unit) (reg : listeners)
  : listeners :=
  reg ++ [(type, f)].

(** Running the script registers the two listeners. *)
Definition script (reg : listeners) : listeners :=
  addEventListener "DOMContentLoaded" second_listener
    (addEventListener "DOMContentLoaded" first_listener reg).

(** Dispatching an event runs the listeners of its type in registration
    order; a value thrown by a listener is reported and the next listener
    still runs.  The result is the list of reported values. *)
Fixpoint dispatchEvent (type : string) (reg : listeners) (s : S) : list exn * S :=
  match reg with
  | [] => ([], s)
  | (ty, f) :: reg' =>
      if ty =? type then
        match f s with
        | (Normal _, s') => dispatchEvent type reg' s'
        | (Thrown e, s') =>
            let (es, s'') := dispatchEvent type reg' s' in (e :: es, s'')
        end
      else dispatchEvent type reg' s
  end.

(** The page: load the script, then signal that the document is ready. *)
Definition page_ready (s : S) : list exn * S :=
  dispatchEvent "DOMContentLoaded" (script []) s.

End Script.

(** ** A concrete DOM

    The page is the tree of nodes the browser built from the markup.  A node
    is referred to by its position in that tree; the script never inserts or
    moves a node, so the only structural change is [remove()], which cuts the
    link from a node to its parent.  The store keeps the tree as loaded and
    the set of nodes whose parent link has been cut: such a node, with what
    is under it, is no longer part of the document, yet references to it (in
    a static NodeList) stay usable. *)

Module Dom.

Local Unset Elimination Schemes.

Inductive node : Type :=
| Text (data : string)
| Comment (data : string)
| Element (localName : string) (classList : list string) (childNodes : list node).

Local Set Elimination Schemes.

(** Induction over a node with the property known of all of its children. *)
Fixpoint node_ind (P : node -> Prop)
    (HText : forall data, P (Text data))
    (HComment : forall data, P (Comment data))
    (HElement : forall name classes ch,
        Forall P ch -> P (Element name classes ch))
    (n : node) : P n :=
  match n with
  | Text data => HText data
  | Comment data => HComment data
  | Element name classes ch =>
      HElement name classes ch
        ((fix all (cs : list node) : Forall P cs :=
            match cs with
            | [] => List.Forall_nil P
            | c :: cs' =>
                List.Forall_cons P c cs'
                  (node_ind P HText HComment HElement c) (all cs')
            end) ch)
  end.

(** The position of a node: the index among its siblings, then the position
    of its parent; [[]] is the Document itself. *)
Definition ref : Type := list nat.

Record store : Type := {
  loaded : list node;
  detached : gset (list nat);
  console : list (string * exn)
}.

Definition page (t : list node) : store :=
  {| loaded := t; detached := ∅; console := [] |}.

Fixpoint childNodes_at (t : list node) (p : ref) : list node :=
  match p with
  | [] => t
  | i :: up =>
      match childNodes_at t up !! i with
      | Some (Element _ _ ch) => ch
      | _ => []
      end
  end.

Definition node_at (t : list node) (p : ref) : option node :=
  match p with
  | [] => None
  | i :: up => childNodes_at t up !! i
  end.

(** The inclusive descendants of the node [n] at [p], in tree order. *)
Fixpoint subtree (p : ref) (n : node) : list ref :=
  p :: match n with
       | Element _ _ ch =>
           (fix kids (i : nat) (cs : list node) : list ref :=
              match cs with
              | [] => []
              | c :: cs' => subtree (i :: p) c ++ kids (S i) cs'
              end) 0 ch
       | _ => []
       end.

Fixpoint forest (p : ref) (i : nat) (cs : list node) : list ref :=
  match cs with
  | [] => []
  | c :: cs' => subtree (i :: p) c ++ forest p (S i) cs'
  end.

(** All nodes below the Document, in tree order. *)
Definition tree_order (t : list node) : list ref := forest [] 0 t.

(** [b] is a proper ancestor of [a]. *)
Definition above (b a : ref) : Prop := b `suffix_of` a ∧ b ≠ a.

(** [b] may come after [a] in tree order: it is not an ancestor of [a]. *)
Definition not_above (a b : ref) : Prop := ¬ above b a.

Section Queries.

Variable st : store.

Definition parentNode (p : ref) : option ref :=
  match p with
  | [] => None
  | _ :: up => if bool_decide (p ∈ detached st) then None else Some up
  end.

(** The chain of parent links from [p] reaches the Document. *)
Fixpoint isConnected (p : ref) : bool :=
  match p with
  | [] => true
  | _ :: up => bool_decide (p ∉ detached st) && isConnected up
  end.

(** [q] is [anc] or reaches it through parent links. *)
Fixpoint descends (anc q : ref) : bool :=
  bool_decide (q = anc)
  || match q with
     | [] => false
     | _ :: up => bool_decide (q ∉ detached st) && descends anc up
     end.

(** Type selectors compare the local name and class selectors a class name,
    both exactly (a document in no-quirks mode). *)
Definition matches_simple (s : simple_selector) (n : option node) : bool :=
  match n with
  | Some (Element name classes _) =>
      match s with
      | ByType t => name =? t
      | ByClass c => bool_decide (c ∈ classes)
      end
  | _ => false
  end.

(** Some proper ancestor of [p] matches [s]. *)
Fixpoint has_ancestor (s : simple_selector) (p : ref) : bool :=
  match p with
  | [] => false
  | _ :: up =>
      bool_decide (p ∉ detached st)
      && (matches_simple s (node_at (loaded st) up) || has_ancestor s up)
  end.

Definition matches (sel : selector) (p : ref) : bool :=
  match sel with
  | Simple s => matches_simple s (node_at (loaded st) p)
  | Descendant anc s =>
      matches_simple s (node_at (loaded st) p) && has_ancestor anc p
  end.

(** The elements of the document that match [sel], in tree order. *)
Definition select (sel : selector) : list ref :=
  filter (λ p, isConnected p && matches sel p) (tree_order (loaded st)).

Definition text_data (n : option node) : string :=
  match n with
  | Some (Text s) => s
  | _ => EmptyString
  end.

(** [textContent] of an element: the data of its Text descendants, in tree
    order. *)
Definition text_of (p : ref) : string :=
  String.concat EmptyString
    (map (λ q, text_data (node_at (loaded st) q))
       (filter (λ q, descends p q) (tree_order (loaded st)))).

(** [closest]: the nearest inclusive ancestor that matches [s]. *)
Fixpoint closest_of (s : simple_selector) (p : ref) : option ref :=
  match p with
  | [] => None
  | _ :: up =>
      if matches_simple s (node_at (loaded st) p) then Some p
      else if bool_decide (p ∈ detached st) then None
      else closest_of s up
  end.

Definition is_element (n : option node) : bool :=
  match n with
  | Some (Element _ _ _) => true
  | _ => false
  end.

Definition next_element_sibling (p : ref) : option ref :=
  match p with
  | [] => None
  | i :: up =>
      if bool_decide (p ∈ detached st) then None
      else
        head (filter (λ q, is_element (node_at (loaded st) q)
                           && bool_decide (q ∉ detached st))
                ((λ j, j :: up) <$>
                   seq (S i) (length (childNodes_at (loaded st) up) - S i)))
  end.

Definition has_class (p : ref) (c : string) : bool :=
  matches_simple (ByClass c) (node_at (loaded st) p).

(** [remove()]: a node without parent stays as it is. *)
Definition detach (p : ref) : store :=
  match parentNode p with
  | Some _ =>
      {| loaded := loaded st;
         detached := {[p]} ∪ detached st;
         console := console st |}
  | None => st
  end.

Definition log_warning (msg : string) (e : exn) : store :=
  {| loaded := loaded st;
     detached := detached st;
     console := (msg, e) :: console st |}.

End Queries.

(** The document as a tree: what is left under the Document once the
    detached nodes are taken out. *)
Fixpoint render_node (det : gset (list nat)) (p : ref) (n : node) : node :=
  match n with
  | Element name classes ch =>
      Element name classes
        ((fix kids (i : nat) (cs : list node) : list node :=
            match cs with
            | [] => []
            | c :: cs' =>
                (if bool_decide (i :: p ∈ det) then []
                 else [render_node det (i :: p) c])
                ++ kids (S i) cs'
            end) 0 ch)
  | _ => n
  end.

Fixpoint render_forest (det : gset (list nat)) (p : ref) (i : nat)
    (cs : list node) : list node :=
  match cs with
  | [] => []
  | c :: cs' =>
      (if bool_decide (i :: p ∈ det) then []
       else [render_node det (i :: p) c])
      ++ render_forest det p (S i) cs'
  end.

Definition document (st : store) : list node :=
  render_forest (detached st) [] 0 (loaded st).

(** The browser: every call of the interface ends normally. *)
Definition browser : DomApi store ref := {|
  querySelectorAll := λ sel st, (Normal (select st sel), st);
  querySelector := λ sel st, (Normal (head (select st sel)), st);
  textContent := λ p st, (Normal (text_of st p), st);
  closest := λ s p st, (Normal (closest_of st s p), st);
  remove := λ p st, (Normal tt, detach st p);
  nextElementSibling := λ p st, (Normal (next_element_sibling st p), st);
  classList_contains := λ p c st, (Normal (has_class st p c), st);
  console_warn := λ msg e st, log_warning st msg e
|}.

End Dom.

(** ** The pruning pass on the concrete DOM *)

Module Pruner.
Import Dom.

(** The test of the callbacks: the trimmed, lower-cased text is one of the
    labels. *)
Definition label_match (labels : list string) (t : string) : bool :=
  existsb (String.eqb (Js.toLowerCase (Js.trim t))) labels.

Definition first_labels : list string := ["dashboard"; "groups"].
Definition second_labels : list string := ["dashboard"].

(** The list item a callback removes for the anchor [a], if any. *)
Definition target (labels : list string) (st : store) (a : ref) : option ref :=
  if label_match labels (text_of st a) then closest_of st (ByType "li") a
  else None.

(** What one callback does to the store. *)
Definition prune_step (labels : list string) (st : store) (a : ref) : store :=
  match target labels st a with
  | Some li => detach st li
  | None => st
  end.

(** What one pass over the static list of sidebar anchors does. *)
Definition prune (labels : list string) (st : store) : store :=
  foldl (prune_step labels) st (select st sidebar_anchors).

(** The list items selected by the sidebar anchors of [st]: the nearest
    enclosing [li] of every anchor whose text matches. *)
Definition pruned_items (labels : list string) (st : store) : list ref :=
  omap (target labels st) (select st sidebar_anchors).

Definition with_detached (st : store) (d : gset (list nat)) : store :=
  {| loaded := loaded st; detached := d; console := console st |}.

(** The state of the loop once the anchors [done] have been visited. *)
Definition visited (labels : list string) (st : store) (done : list ref)
  : store :=
  with_detached st (detached st ∪ list_to_set (omap (target labels st) done)).

(** [p] lies in (or is) one of the list items [items]. *)
Definition inside (items : list ref) (p : ref) : bool :=
  bool_decide (Exists (λ li, li `suffix_of` p) items).

(** No [a] element of the tree has an [a] element among its ancestors. *)
Definition no_nested_anchors (t : list node) : bool :=
  forallb
    (λ q, negb (matches_simple (ByType "a") (node_at t q)
                && has_ancestor (page t) (ByType "a") q))
    (tree_order t).

(** The insertion target in the words of the specification: the element
    sibling that follows the first sidebar header whose text is "exams",
    when there is one and it carries [nav-treeview]; otherwise the first
    element that carries [nav-sidebar], if any. *)
Definition spec_insertion_target (st : store) : option ref :=
  let fallback := head (select st (Simple (ByClass "nav-sidebar"))) in
  match
    head (filter (λ h, Js.toLowerCase (Js.trim (text_of st h)) =? "exams")
            (select st sidebar_headers))
  with
  | Some h =>
      match next_element_sibling st h with
      | Some u => if has_class st u "nav-treeview" then Some u else fallback
      | None => fallback
      end
  | None => fallback
  end.

End Pruner.

(** ** Counting the passes over the sidebar anchors *)

Global Instance simple_selector_eq_dec : EqDecision simple_selector.
Proof. solve_decision. Defined.

Global Instance selector_eq_dec : EqDecision selector.
Proof. solve_decision. Defined.

Section Counting.

Context {S R : Type}.
Variable dom : DomApi S R.

Definition uncounted {A} (m : M S A) : M (S * nat) A :=
  fun '(s, n) => let '(o, s') := m s in (o, (s', n)).

(** The interface [dom] with a counter of the calls
    [querySelectorAll('.nav-sidebar a')]. *)
Definition counting : DomApi (S * nat) R := {|
  querySelectorAll := λ sel '(s, n),
    let '(o, s') := querySelectorAll dom sel s in
    (o, (s', if bool_decide (sel = sidebar_anchors) then Datatypes.S n else n));
  querySelector := λ sel, uncounted (querySelector dom sel);
  textContent := λ r, uncounted (textContent dom r);
  closest := λ s r, uncounted (closest dom s r);
  remove := λ r, uncounted (remove dom r);
  nextElementSibling := λ r, uncounted (nextElementSibling dom r);
  classList_contains := λ r c, uncounted (classList_contains dom r c);
  console_warn := λ msg e '(s, n), (console_warn dom msg e s, n)
|}.

(** The computation leaves the counter as it is. *)
Definition keeps_count {A} (m : M (S * nat) A) : Prop :=
  ∀ s n, snd (snd (m (s, n))) = n.

End Counting.

(** A builder none of whose operations is available. *)
Definition no_builder {S R : Type} : DomBuilder S R := {|
  createElement := λ _, throw "createElement";
  set_className := λ _ _, throw "className";
  set_innerHTML := λ _ _, throw "innerHTML";
  appendChild := λ _ _, throw "appendChild"
|}.

(** The page with the section locator and [addItem] taken out of the first
    listener. *)
Definition page_ready_pruner_only {S R : Type} (dom : DomApi S R) (s : S)
  : list exn * S :=
  dispatchEvent "DOMContentLoaded"
    (addEventListener "DOMContentLoaded" (second_listener dom)
       (addEventListener "DOMContentLoaded" (first_listener_pruner_only dom) []))
    s.

Module Examples.
Import Dom.

Definition link (label : string) : node :=
  Element "a" ["nav-link"] [Text label].

Definition item (label : string) : node :=
  Element "li" ["nav-item"] [link label].

(** A sidebar with the items Dashboard, Groups and Reports. *)
Definition sidebar3 : list node :=
  [Element "ul" ["nav"; "nav-sidebar"]
     [item "Dashboard"; item "Groups"; item "Reports"]].

(** The Dashboard item holds a sub-menu with a Reports item. *)
Definition nested_menu : list node :=
  [Element "ul" ["nav"; "nav-sidebar"]
     [Element "li" ["nav-item"]
        [link "Dashboard";
         Element "ul" ["nav"; "nav-treeview"] [item "Reports"]]]].

(** One list item holds two links. *)
Definition shared_item : list node :=
  [Element "ul" ["nav"; "nav-sidebar"]
     [Element "li" ["nav-item"] [link " Dashboard "; link "Reports"]]].

(** A sidebar whose links are not wrapped in list items. *)
Definition bare_links : list node :=
  [Element "div" ["nav-sidebar"] [link "Dashboard"; link "Reports"]].

(** A link that holds a list item with a link of its own. *)
Definition nested_anchors : list node :=
  [Element "ul" ["nav-sidebar"]
     [Element "li" ["nav-item"]
        [Element "a" ["nav-link"] [Text "Groups"; item "Groups"]]]].

(** A page without sidebar. *)
Definition no_sidebar : list node :=
  [Element "ul" ["nav"] [item "Dashboard"; item "Reports"]].

(** A sidebar with an Exams section. *)
Definition exams_section : list node :=
  [Element "ul" ["nav"; "nav-sidebar"]
     [item "Reports";
      Element "li" ["nav-header"] [Text " Exams "];
      Comment "section";
      Element "ul" ["nav"; "nav-treeview"] [item "Import"]]].

(** The browser with a [closest] that throws when called on [bad]. *)
Definition flaky (bad : ref) : DomApi store ref := {|
  querySelectorAll := querySelectorAll browser;
  querySelector := querySelector browser;
  textContent := textContent browser;
  closest := λ s p,
    if bool_decide (p = bad) then throw "closest failed"
    else closest browser s p;
  remove := remove browser;
  nextElementSibling := nextElementSibling browser;
  classList_contains := classList_contains browser;
  console_warn := console_warn browser
|}.

End Examples.

(** * Properties *)

(** ** Strings *)

Module JsFacts.
Import Js.

#[local] Arguments String.append !_ _ / : simpl nomatch.

Lemma lower_char_whitespace c : is_whitespace (lower_char c) = is_whitespace c.
Proof. by destruct c as [[] [] [] [] [] [] [] []]. Qed.

Lemma append_empty_r s : (s ++ EmptyString)%string = s.
Proof. induction s as [|c s IH]; simpl; congruence. Qed.

Lemma append_assoc s1 s2 s3 :
  ((s1 ++ s2) ++ s3)%string = (s1 ++ (s2 ++ s3))%string.
Proof. induction s1 as [|c s1 IH]; simpl; congruence. Qed.

Lemma length_append s1 s2 :
  String.length (s1 ++ s2)%string = String.length s1 + String.length s2.
Proof. induction s1 as [|c s1 IH]; simpl; congruence. Qed.

Lemma length_toLowerCase s : String.length (toLowerCase s) = String.length s.
Proof. induction s as [|c s IH]; simpl; congruence. Qed.

Lemma length_zero s : String.length s = 0 → s = EmptyString.
Proof. by destruct s. Qed.

Lemma trimStart_split s :
  ∃ ws, s = (ws ++ trimStart s)%string ∧ blank ws = true.
Proof.
  induction s as [|c s (ws & Hs & Hws)]; simpl.
  - by exists EmptyString.
  - destruct (is_whitespace c) eqn:Hc.
    + exists (String c ws). simpl. rewrite Hc, Hws. by rewrite <- Hs.
    + by exists EmptyString.
Qed.

Lemma trimEnd_split s :
  ∃ ws, s = (trimEnd s ++ ws)%string ∧ blank ws = true.
Proof.
  induction s as [|c s (ws & Hs & Hws)]; simpl.
  - by exists EmptyString.
  - destruct (trimEnd s) as [|d t] eqn:Ht.
    + destruct (is_whitespace c) eqn:Hc.
      * exists (String c ws). simpl in *. subst s. by rewrite Hc, Hws.
      * exists ws. simpl in *. by subst s.
    + exists ws. split; [|done]. simpl in *. by rewrite <- Hs.
Qed.

Lemma trim_split s :
  ∃ ws1 ws2, s = (ws1 ++ trim s ++ ws2)%string
             ∧ blank ws1 = true ∧ blank ws2 = true.
Proof.
  destruct (trimStart_split s) as (ws1 & H1 & Hb1).
  destruct (trimEnd_split (trimStart s)) as (ws2 & H2 & Hb2).
  exists ws1, ws2. unfold trim. by rewrite <- H2, <- H1.
Qed.

Lemma trimStart_blank ws s :
  blank ws = true → trimStart (ws ++ s)%string = trimStart s.
Proof.
  induction ws as [|c ws IH]; simpl; [done|].
  intros [Hc Hws]%andb_prop. rewrite Hc. auto.
Qed.

Lemma trimEnd_blank_all ws : blank ws = true → trimEnd ws = EmptyString.
Proof.
  induction ws as [|c ws IH]; simpl; [done|].
  intros [Hc Hws]%andb_prop. by rewrite IH, Hc.
Qed.

Lemma trimEnd_blank s ws :
  blank ws = true → trimEnd (s ++ ws)%string = trimEnd s.
Proof.
  intros Hws. induction s as [|c s IH]; simpl.
  - by apply trimEnd_blank_all.
  - by rewrite IH.
Qed.

Lemma trimStart_toLowerCase s :
  trimStart (toLowerCase s) = toLowerCase (trimStart s).
Proof.
  induction s as [|c s IH]; simpl; [done|].
  rewrite lower_char_whitespace. by destruct (is_whitespace c).
Qed.

Lemma trimEnd_toLowerCase s :
  trimEnd (toLowerCase s) = toLowerCase (trimEnd s).
Proof.
  induction s as [|c s IH]; simpl; [done|].
  rewrite IH, lower_char_whitespace.
  destruct (trimEnd s); simpl; [|done].
  by destruct (is_whitespace c).
Qed.

Lemma trim_toLowerCase s : trim (toLowerCase s) = toLowerCase (trim s).
Proof. unfold trim. by rewrite trimStart_toLowerCase, trimEnd_toLowerCase. Qed.

(** A string whose lower-cased form has no white space at its ends has none
    either. *)
Lemma trim_fixed_lower u :
  trim (toLowerCase u) = toLowerCase u → trim u = u.
Proof.
  intros H. rewrite trim_toLowerCase in H.
  destruct (trim_split u) as (ws1 & ws2 & Hu & _ & _).
  assert (Hlen : String.length (trim u) = String.length u).
  { by rewrite <- (length_toLowerCase (trim u)), H, length_toLowerCase. }
  rewrite Hu in Hlen at 2. rewrite !length_append in Hlen.
  assert (ws1 = EmptyString) as -> by (apply length_zero; lia).
  assert (ws2 = EmptyString) as -> by (apply length_zero; lia).
  simpl in Hu. by rewrite append_empty_r in Hu.
Qed.

Lemma length_trimStart s :
  (String.length (trimStart s) ≤ String.length s)%nat.
Proof.
  induction s as [|c s IH]; simpl; [done|].
  destruct (is_whitespace c); simpl; lia.
Qed.

Lemma length_trimEnd s :
  (String.length (trimEnd s) ≤ String.length s)%nat.
Proof.
  induction s as [|c s IH]; simpl; [done|].
  destruct (trimEnd s); [destruct (is_whitespace c)|]; simpl in *; lia.
Qed.

Lemma trimStart_blank_all ws : blank ws = true → trimStart ws = EmptyString.
Proof.
  induction ws as [|c ws IH]; simpl; [done|].
  intros [Hc Hws]%andb_prop. rewrite Hc. auto.
Qed.

Lemma trim_padded ws1 u ws2 :
  blank ws1 = true → blank ws2 = true → trim u = u →
  trim (ws1 ++ u ++ ws2)%string = u.
Proof.
  intros H1 H2 Hu. unfold trim in *.
  rewrite trimStart_blank by done.
  destruct u as [|c u]; simpl in *.
  - by rewrite trimStart_blank_all.
  - destruct (is_whitespace c) eqn:Hc.
    + exfalso.
      pose proof (length_trimEnd (trimStart u)) as Hle.
      pose proof (length_trimStart u) as Hle'.
      rewrite Hu in Hle. simpl in Hle. lia.
    + change (String c (u ++ ws2)%string) with (String c u ++ ws2)%string.
      by rewrite trimEnd_blank.
Qed.

End JsFacts.

(** ** Listeners on an arbitrary DOM interface *)

Section ListenerFacts.

Context {S R : Type}.
Variable dom : DomApi S R.
Variable builder : DomBuilder S R.

Lemma try_catch_normal (body : M S unit) (h : exn → S → S) (s : S) :
  fst (try_catch body h s) = Normal tt.
Proof. unfold try_catch. by destruct (body s) as [[[]|e] s']. Qed.

Lemma forEach_app {A} (l1 l2 : list A) (f : A → M S unit) (s : S) :
  forEach (l1 ++ l2) f s =
    match forEach l1 f s with
    | (Normal _, s1) => forEach l2 f s1
    | (Thrown e, s1) => (Thrown e, s1)
    end.
Proof.
  revert s. induction l1 as [|x l1 IH]; intros s; simpl; [done|].
  unfold bind. destruct (f x s) as [[[]|e] s1]; [apply IH|done].
Qed.

Lemma dispatch_two (f g : M S unit) (s : S) :
  fst (f s) = Normal tt → (∀ s1, fst (g s1) = Normal tt) →
  dispatchEvent "DOMContentLoaded"
    (addEventListener "DOMContentLoaded" g
       (addEventListener "DOMContentLoaded" f [])) s
  = ([], snd (g (snd (f s)))).
Proof.
  intros Hf Hg. unfold addEventListener. simpl.
  destruct (f s) as [[[]|e] s1]; simpl in *; [|done].
  specialize (Hg s1). by destruct (g s1) as [[[]|e] s2].
Qed.

Lemma page_ready_eq (s : S) :
  page_ready dom builder s
  = ([], snd (second_listener dom (snd (first_listener dom builder s)))).
Proof.
  apply dispatch_two; [|intros s1]; apply try_catch_normal.
Qed.

Lemma page_ready_pruner_only_eq (s : S) :
  page_ready_pruner_only dom s
  = ([], snd (second_listener dom (snd (first_listener_pruner_only dom s)))).
Proof.
  apply dispatch_two; [|intros s1]; apply try_catch_normal.
Qed.

End ListenerFacts.

Lemma array_find_app {S A : Type} (l1 l2 : list A) (f : A → M S bool) (s : S) :
  array_find (l1 ++ l2) f s =
    match array_find l1 f s with
    | (Normal None, s1) => array_find l2 f s1
    | r => r
    end.
Proof.
  revert s. induction l1 as [|x l1 IH]; intros s; simpl; [done|].
  unfold bind. destruct (f x s) as [[[]|e] s1]; [done|apply IH|done].
Qed.

(** C6: on any DOM interface, whatever its calls throw, a listener ends
    normally and nothing is reported to the caller of the listeners.  A
    value thrown by any DOM call of the [try] block - the query for the
    anchors, [textContent], [closest] or [remove] in a callback, or a call
    of the section locator - ends the callback, the loop and the block
    there: it is caught and logged with [console.warn] on the store as it is
    at the throw, and the anchors after the point of failure are not
    visited. *)
Theorem failure_is_caught_and_logged {S R : Type}
    (dom : DomApi S R) (builder : DomBuilder S R) (s : S) :
  let warn := console_warn dom "Sidebar customization failed" in
  let is_exams := λ h, (t <- textContent dom h ;;
                        ret (Js.toLowerCase (Js.trim t) =? "exams"))%js in
  first_listener dom builder s
  = match first_body dom builder s with
    | (Normal _, s') => (Normal tt, s')
    | (Thrown e, s') => (Normal tt, warn e s')
    end
  ∧ second_listener dom s
    = match second_body dom s with
      | (Normal _, s') => (Normal tt, s')
      | (Thrown e, s') => (Normal tt, warn e s')
      end
  ∧ fst (first_listener dom builder s) = Normal tt
  ∧ fst (second_listener dom s) = Normal tt
  ∧ fst (page_ready dom builder s) = []
  ∧ (∀ (done rest : list R) (f : R → M S unit),
       forEach (done ++ rest) f s =
         match forEach done f s with
         | (Normal _, s1) => forEach rest f s1
         | (Thrown e, s1) => (Thrown e, s1)
         end)
  ∧ (∀ a e s',
       textContent dom a s = (Thrown e, s') →
       remove_if_dashboard_or_groups dom a s = (Thrown e, s')
       ∧ remove_if_dashboard dom a s = (Thrown e, s'))
  ∧ (∀ a t s1 e s',
       textContent dom a s = (Normal t, s1) →
       closest dom (ByType "li") a s1 = (Thrown e, s') →
       (Js.toLowerCase (Js.trim t) = "dashboard"
        ∨ Js.toLowerCase (Js.trim t) = "groups" →
        remove_if_dashboard_or_groups dom a s = (Thrown e, s'))
       ∧ (Js.toLowerCase (Js.trim t) = "dashboard" →
          remove_if_dashboard dom a s = (Thrown e, s')))
  ∧ (∀ a t s1 li s2 e s',
       textContent dom a s = (Normal t, s1) →
       closest dom (ByType "li") a s1 = (Normal (Some li), s2) →
       remove dom li s2 = (Thrown e, s') →
       (Js.toLowerCase (Js.trim t) = "dashboard"
        ∨ Js.toLowerCase (Js.trim t) = "groups" →
        remove_if_dashboard_or_groups dom a s = (Thrown e, s'))
       ∧ (Js.toLowerCase (Js.trim t) = "dashboard" →
          remove_if_dashboard dom a s = (Thrown e, s')))
  ∧ (∀ e s',
       querySelectorAll dom sidebar_anchors s = (Thrown e, s') →
       first_listener dom builder s = (Normal tt, warn e s')
       ∧ second_listener dom s = (Normal tt, warn e s'))
  ∧ (∀ anchors s0 done a rest s1 e s',
       querySelectorAll dom sidebar_anchors s = (Normal anchors, s0) →
       anchors = done ++ a :: rest →
       (forEach done (remove_if_dashboard_or_groups dom) s0 = (Normal tt, s1) →
        remove_if_dashboard_or_groups dom a s1 = (Thrown e, s') →
        first_listener dom builder s = (Normal tt, warn e s'))
       ∧ (forEach done (remove_if_dashboard dom) s0 = (Normal tt, s1) →
          remove_if_dashboard dom a s1 = (Thrown e, s') →
          second_listener dom s = (Normal tt, warn e s')))
  ∧ (∀ s1 e s',
       remove_dashboard_and_groups dom s = (Normal tt, s1) →
       find_exams_ul dom s1 = (Thrown e, s') →
       first_listener dom builder s = (Normal tt, warn e s'))
  ∧ (∀ e s',
       querySelectorAll dom sidebar_headers s = (Thrown e, s') →
       find_exams_ul dom s = (Thrown e, s'))
  ∧ (∀ headers s0 done h rest s1 e s',
       querySelectorAll dom sidebar_headers s = (Normal headers, s0) →
       headers = done ++ h :: rest →
       array_find done is_exams s0 = (Normal None, s1) →
       textContent dom h s1 = (Thrown e, s') →
       find_exams_ul dom s = (Thrown e, s'))
  ∧ (∀ headers s0 h s1 e s',
       querySelectorAll dom sidebar_headers s = (Normal headers, s0) →
       array_find headers is_exams s0 = (Normal (Some h), s1) →
       nextElementSibling dom h s1 = (Thrown e, s') →
       find_exams_ul dom s = (Thrown e, s'))
  ∧ (∀ headers s0 h s1 u s2 e s',
       querySelectorAll dom sidebar_headers s = (Normal headers, s0) →
       array_find headers is_exams s0 = (Normal (Some h), s1) →
       nextElementSibling dom h s1 = (Normal (Some u), s2) →
       classList_contains dom u "nav-treeview" s2 = (Thrown e, s') →
       find_exams_ul dom s = (Thrown e, s'))
  ∧ (∀ headers s0 examsHeader s1 ul s2 s3 e s',
       querySelectorAll dom sidebar_headers s = (Normal headers, s0) →
       array_find headers is_exams s0 = (Normal examsHeader, s1) →
       match examsHeader with
       | Some h => nextElementSibling dom h
       | None => ret None
       end s1 = (Normal ul, s2) →
       match ul with
       | Some u => classList_contains dom u "nav-treeview"
       | None => ret false
       end s2 = (Normal false, s3) →
       querySelector dom (Simple (ByClass "nav-sidebar")) s3 = (Thrown e, s') →
       find_exams_ul dom s = (Thrown e, s')).
Proof.
  intros warn is_exams. subst warn is_exams.
  assert (Hd : ∀ t : string, t = "dashboard" ∨ t = "groups" →
                 (t =? "dashboard") || (t =? "groups") = true).
  { by intros t [-> | ->]. }
  split_and!.
  - done.
  - done.
  - apply try_catch_normal.
  - apply try_catch_normal.
  - by rewrite page_ready_eq.
  - intros. apply forEach_app.
  - intros a e s' Ht.
    unfold remove_if_dashboard_or_groups, remove_if_dashboard, bind.
    by rewrite Ht.
  - intros a t s1 e s' Ht Hc.
    unfold remove_if_dashboard_or_groups, remove_if_dashboard, bind.
    rewrite Ht. cbv zeta. split.
    + intros Hm. rewrite (Hd _ Hm). cbv beta iota. by rewrite Hc.
    + intros ->. rewrite String.eqb_refl. cbv beta iota. by rewrite Hc.
  - intros a t s1 li s2 e s' Ht Hc Hr.
    unfold remove_if_dashboard_or_groups, remove_if_dashboard, bind.
    rewrite Ht. cbv zeta. split.
    + intros Hm. rewrite (Hd _ Hm). cbv beta iota. by rewrite Hc.
    + intros ->. rewrite String.eqb_refl. cbv beta iota. by rewrite Hc.
  - intros e s' Hq.
    unfold first_listener, second_listener, try_catch, first_body,
      second_body, remove_dashboard_and_groups, remove_dashboard, bind.
    by rewrite Hq.
  - intros anchors s0 done a rest s1 e s' Hq ->.
    unfold first_listener, second_listener, try_catch, first_body,
      second_body, remove_dashboard_and_groups, remove_dashboard.
    unfold bind at 1 2. unfold bind at 2. rewrite Hq, !forEach_app.
    split; intros Hdone Ha; rewrite Hdone; simpl; unfold bind; by rewrite Ha.
  - intros s1 e s' Hp Hf.
    unfold first_listener, try_catch, first_body, bind.
    by rewrite Hp, Hf.
  - intros e s' Hq. unfold find_exams_ul, bind. by rewrite Hq.
  - intros headers s0 done h rest s1 e s' Hq -> Hdone Ht.
    unfold find_exams_ul. unfold bind at 1 2. rewrite Hq, array_find_app, Hdone.
    simpl. unfold bind. by rewrite Ht.
  - intros headers s0 h s1 e s' Hq Hf Hn.
    unfold find_exams_ul, bind in *. by rewrite Hq, Hf, Hn.
  - intros headers s0 h s1 u s2 e s' Hq Hf Hn Hc.
    unfold find_exams_ul, bind in *. by rewrite Hq, Hf, Hn, Hc.
  - intros headers s0 examsHeader s1 ul s2 s3 e s' Hq Hf Hn Hc Hs.
    unfold find_exams_ul, bind in *. rewrite Hq, Hf, Hn, Hc.
    cbn [negb]. cbv beta iota. by rewrite Hs.
Qed.

Lemma failure_is_caught_and_logged_witness :
  let dom := Examples.flaky [0; 1; 0] in
  let st := Dom.page Examples.sidebar3 in
  let s1 := snd (forEach [[0; 0; 0]] (remove_if_dashboard_or_groups dom) st) in
  (querySelectorAll dom sidebar_anchors st
   = (Normal ([[0; 0; 0]] ++ [0; 1; 0] :: [[0; 2; 0]]), st)
   ∧ forEach [[0; 0; 0]] (remove_if_dashboard_or_groups dom) st
     = (Normal tt, s1)
   ∧ textContent dom [0; 1; 0] s1 = (Normal "Groups", s1)
   ∧ closest dom (ByType "li") [0; 1; 0] s1 = (Thrown "closest failed", s1)
   ∧ Js.toLowerCase (Js.trim "Groups") = "groups")
  ∧ first_listener dom no_builder st
    = (Normal tt,
       console_warn dom "Sidebar customization failed" "closest failed" s1)
  ∧ Dom.document (snd (first_listener dom no_builder st))
    = [Dom.Element "ul" ["nav"; "nav-sidebar"]
         [Examples.item "Groups"; Examples.item "Reports"]].
Proof.
  intros dom st s1.
  assert (Hq : querySelectorAll dom sidebar_anchors st
               = (Normal ([[0; 0; 0]] ++ [0; 1; 0] :: [[0; 2; 0]]), st))
    by (by vm_compute).
  assert (Hdone : forEach [[0; 0; 0]] (remove_if_dashboard_or_groups dom) st
                  = (Normal tt, s1)) by (by vm_compute).
  assert (Ht : textContent dom [0; 1; 0] s1 = (Normal "Groups", s1))
    by (by vm_compute).
  assert (Hc : closest dom (ByType "li") [0; 1; 0] s1
               = (Thrown "closest failed", s1)) by (by vm_compute).
  assert (Hn : Js.toLowerCase (Js.trim "Groups") = "groups")
    by (by vm_compute).
  destruct (failure_is_caught_and_logged dom no_builder s1)
    as (_ & _ & _ & _ & _ & _ & _ & Hcb & _).
  destruct (failure_is_caught_and_logged dom no_builder st)
    as (_ & _ & _ & _ & _ & _ & _ & _ & _ & _ & Hloop & _).
  pose proof (proj1 (Hcb _ _ _ _ _ Ht Hc) (or_intror Hn)) as Hthrow.
  pose proof (proj1 (Hloop _ _ _ _ _ _ _ _ Hq eq_refl) Hdone Hthrow) as Hlog.
  split_and!; [exact Hq|exact Hdone|exact Ht|exact Hc|exact Hn|exact Hlog|].
  rewrite Hlog. by vm_compute.
Defined.

(** A failure at the second anchor: the Dashboard item is gone already, the
    Groups item and what follows stay, and one warning is logged. *)
Example failure_at_second_anchor :
  let r := first_listener (Examples.flaky [0; 1; 0]) no_builder
             (Dom.page Examples.sidebar3) in
  fst r = Normal tt
  ∧ Dom.document (snd r)
    = [Dom.Element "ul" ["nav"; "nav-sidebar"]
         [Examples.item "Groups"; Examples.item "Reports"]]
  ∧ Dom.console (snd r) = [("Sidebar customization failed", "closest failed")].
Proof. split_and!; by vm_compute. Qed.

(** ** Counting the passes *)

Section CountingFacts.

Context {S R : Type}.
Variable dom : DomApi S R.
Variable builder : DomBuilder (S * nat) R.

Lemma keeps_uncounted {A} (m : M S A) : keeps_count (uncounted m).
Proof. intros s n. unfold uncounted. by destruct (m s). Qed.

Lemma keeps_ret {A} (a : A) : keeps_count (S:=S) (ret a).
Proof. by intros s n. Qed.

Lemma keeps_bind {A B} (m : M (S * nat) A) (k : A → M (S * nat) B) :
  keeps_count m → (∀ a, keeps_count (k a)) → keeps_count (bind m k).
Proof.
  intros Hm Hk s n. unfold bind. specialize (Hm s n).
  destruct (m (s, n)) as [[a|e] [s1 n1]]; simpl in *; subst; [apply Hk|done].
Qed.

Lemma keeps_forEach {A} (l : list A) (f : A → M (S * nat) unit) :
  (∀ a, keeps_count (f a)) → keeps_count (forEach l f).
Proof.
  intros Hf. induction l as [|x l IH]; simpl.
  - apply keeps_ret.
  - by apply keeps_bind.
Qed.

Lemma keeps_array_find {A} (l : list A) (f : A → M (S * nat) bool) :
  (∀ a, keeps_count (f a)) → keeps_count (array_find l f).
Proof.
  intros Hf. induction l as [|x l IH]; simpl.
  - apply keeps_ret.
  - apply keeps_bind; [done|]. intros []; [apply keeps_ret|done].
Qed.

Lemma keeps_first_callback a :
  keeps_count (remove_if_dashboard_or_groups (counting dom) a).
Proof.
  apply keeps_bind; [apply keeps_uncounted|]. intros t.
  cbv zeta. case_match; [|apply keeps_ret].
  apply keeps_bind; [apply keeps_uncounted|].
  intros [li|]; [apply keeps_uncounted|apply keeps_ret].
Qed.

Lemma keeps_second_callback a :
  keeps_count (remove_if_dashboard (counting dom) a).
Proof.
  apply keeps_bind; [apply keeps_uncounted|]. intros t.
  cbv zeta. case_match; [|apply keeps_ret].
  apply keeps_bind; [apply keeps_uncounted|].
  intros [li|]; [apply keeps_uncounted|apply keeps_ret].
Qed.

Lemma keeps_find_exams_ul : keeps_count (find_exams_ul (counting dom)).
Proof.
  apply keeps_bind.
  { intros s n. simpl. by destruct (querySelectorAll dom _ s). }
  intros headers. apply keeps_bind.
  { apply keeps_array_find. intros h.
    apply keeps_bind; [apply keeps_uncounted|]. intros t. apply keeps_ret. }
  intros examsHeader. apply keeps_bind.
  { destruct examsHeader; [apply keeps_uncounted|apply keeps_ret]. }
  intros ul. apply keeps_bind.
  { destruct ul; [apply keeps_uncounted|apply keeps_ret]. }
  intros []; simpl; [apply keeps_ret|apply keeps_uncounted].
Qed.

(** A pass: one counted query, then callbacks that leave the counter. *)
Lemma pass_counts_once (f : R → M (S * nat) unit) s n :
  (∀ a, keeps_count (f a)) →
  snd (snd ((anchors <- querySelectorAll (counting dom) sidebar_anchors ;;
             forEach anchors f) (s, n))) = Datatypes.S n.
Proof.
  intros Hf. unfold bind. simpl.
  destruct (querySelectorAll dom sidebar_anchors s) as [[l|e] s1]; [|done].
  apply keeps_forEach, Hf.
Qed.

Lemma first_listener_counts_once s n :
  snd (snd (first_listener (counting dom) builder (s, n))) = Datatypes.S n.
Proof.
  unfold first_listener, try_catch, first_body.
  pose proof (pass_counts_once _ s n keeps_first_callback) as H1.
  unfold bind at 1.
  fold (remove_dashboard_and_groups (counting dom)).
  unfold remove_dashboard_and_groups at 1.
  destruct ((anchors <- querySelectorAll (counting dom) sidebar_anchors ;;
             forEach anchors (remove_if_dashboard_or_groups (counting dom)))
              (s, n)) as [[[]|e] [s1 n1]]; simpl in H1; subst n1; [|done].
  pose proof (keeps_find_exams_ul s1 (Datatypes.S n)) as H2.
  unfold bind.
  by destruct (find_exams_ul (counting dom) (s1, Datatypes.S n))
    as [[ul|e] [s2 n2]]; simpl in *; subst n2.
Qed.

Lemma second_listener_counts_once s n :
  snd (snd (second_listener (counting dom) (s, n))) = Datatypes.S n.
Proof.
  unfold second_listener, try_catch, second_body, remove_dashboard.
  pose proof (pass_counts_once _ s n keeps_second_callback) as H1.
  by destruct ((anchors <- querySelectorAll (counting dom) sidebar_anchors ;;
                forEach anchors (remove_if_dashboard (counting dom)))
                 (s, n)) as [[[]|e] [s1 n1]]; simpl in H1; subst n1.
Qed.

End CountingFacts.

(** ** The tree and its order *)

Module TreeFacts.
Import Dom.

Lemma subtree_eq p n :
  subtree p n
  = p :: match n with
         | Element _ _ ch => forest p 0 ch
         | _ => []
         end.
Proof.
  destruct n as [| |name classes ch]; simpl; try done.
  f_equal. generalize 0. induction ch as [|c ch IH]; intros i; simpl; [done|].
  by rewrite IH.
Qed.

Lemma suffix_same_length (x y z : ref) :
  x `suffix_of` z → y `suffix_of` z → length x = length y → x = y.
Proof.
  intros [k1 ->] [k2 Hk] Hlen.
  by apply app_inj_2 in Hk as [_ ->].
Qed.

Lemma forest_suffix_of_all (P : node → Prop) cs :
  Forall (λ n, ∀ p x, x ∈ subtree p n → p `suffix_of` x) cs →
  ∀ p i x, x ∈ forest p i cs → ∃ j, (i ≤ j)%nat ∧ (j :: p) `suffix_of` x.
Proof.
  induction 1 as [|c cs Hc _ IH]; intros p i x; simpl.
  - by intros ?%elem_of_nil.
  - intros [Hx|Hx]%elem_of_app.
    + exists i. split; [lia|]. by apply Hc.
    + destruct (IH p (Datatypes.S i) x Hx) as (j & Hj & Hs).
      exists j. split; [lia|done].
Qed.

Lemma subtree_suffix n : ∀ p x, x ∈ subtree p n → p `suffix_of` x.
Proof.
  induction n as [| |name classes ch IH] using node_ind; intros p x;
    rewrite subtree_eq.
  - by intros ->%list_elem_of_singleton.
  - by intros ->%list_elem_of_singleton.
  - intros [->|Hx]%elem_of_cons; [done|].
    destruct (forest_suffix_of_all (λ _, True) ch IH p 0 x Hx) as (j & _ & Hs).
    by eapply suffix_cons_l.
Qed.

Lemma forest_suffix cs p i x :
  x ∈ forest p i cs → ∃ j, (i ≤ j)%nat ∧ (j :: p) `suffix_of` x.
Proof.
  apply (forest_suffix_of_all (λ _, True)).
  apply Forall_forall. intros n _. apply subtree_suffix.
Qed.

Lemma forest_sorted_of_all cs :
  Forall (λ n, ∀ p, StronglySorted not_above (subtree p n)) cs →
  ∀ p i, StronglySorted not_above (forest p i cs).
Proof.
  induction 1 as [|c cs Hc _ IH]; intros p i; simpl.
  - constructor.
  - apply StronglySorted_app. split_and!; [|apply Hc|apply IH].
    intros x y Hx Hy [Hyx Hne].
    apply subtree_suffix in Hx.
    apply forest_suffix in Hy as (j & Hj & Hy).
    assert (j :: p = i :: p) as [= ->]; [|lia].
    eapply suffix_same_length; [by etrans|done..].
Qed.

Lemma subtree_sorted n : ∀ p, StronglySorted not_above (subtree p n).
Proof.
  induction n as [| |name classes ch IH] using node_ind; intros p;
    rewrite subtree_eq; try by repeat constructor.
  constructor; [by apply forest_sorted_of_all|].
  apply Forall_forall. intros x Hx [Hxp Hne].
  apply forest_suffix in Hx as (j & _ & Hs).
  apply suffix_length in Hxp. apply suffix_length in Hs. simpl in Hs. lia.
Qed.

Lemma tree_order_sorted t : StronglySorted not_above (tree_order t).
Proof.
  apply forest_sorted_of_all, Forall_forall. intros n _. apply subtree_sorted.
Qed.

Lemma StronglySorted_filter_bool {A} (R : relation A) (f : A → bool) l :
  StronglySorted R l → StronglySorted R (filter f l).
Proof.
  induction 1 as [|x l Hl IH Hx]; [constructor|].
  rewrite filter_cons. case_decide; [|done].
  constructor; [done|].
  apply Forall_forall. intros y [_ Hy]%list_elem_of_filter.
  by eapply Forall_forall in Hx.
Qed.

Lemma subtree_head p n : p ∈ subtree p n.
Proof. rewrite subtree_eq. apply list_elem_of_here. Qed.

Lemma forest_lookup cs p i k n x :
  cs !! k = Some n → x ∈ subtree ((i + k) :: p) n → x ∈ forest p i cs.
Proof.
  revert i k. induction cs as [|c cs IH]; intros i k; [done|].
  destruct k as [|k]; simpl.
  - intros [= ->]. rewrite Nat.add_0_r. set_solver.
  - intros Hk Hx. apply elem_of_app. right.
    apply (IH (Datatypes.S i) k); [done|].
    by replace (Datatypes.S i + k) with (i + Datatypes.S k) by lia.
Qed.

(** Every node of the tree occurs in the tree order, with what is below. *)
Lemma node_at_subtree t q n x :
  node_at t q = Some n → x ∈ subtree q n → x ∈ tree_order t.
Proof.
  revert n x. induction q as [|i up IH]; intros n x; [done|].
  destruct up as [|j up'].
  - simpl. intros Hn Hx. by apply (forest_lookup t [] 0 i n).
  - intros Hn Hx.
    change (node_at t (i :: j :: up')) with (childNodes_at t (j :: up') !! i) in Hn.
    simpl in Hn.
    destruct (childNodes_at t up' !! j) as [[| |name classes ch]|] eqn:Hup;
      try done.
    apply (IH (Element name classes ch)); [done|].
    rewrite subtree_eq. apply list_elem_of_further.
    by apply (forest_lookup ch (j :: up') 0 i n).
Qed.

Lemma node_at_tree_order t q n : node_at t q = Some n → q ∈ tree_order t.
Proof. intros Hn. eapply node_at_subtree; [done|apply subtree_head]. Qed.

End TreeFacts.

(** ** Queries on a store *)

Module DomFacts.
Import Dom TreeFacts.

Lemma above_cons q i up : above q (i :: up) → q `suffix_of` up.
Proof.
  intros [Hs Hne]. destruct q as [|j q]; [apply suffix_nil|].
  by apply suffix_cons_inv in Hs as [?|?].
Qed.

Lemma above_trans_r q l a : above q l → l `suffix_of` a → above q a.
Proof.
  intros [Hql Hne] Hla. split; [by etrans|].
  intros ->. apply Hne. by apply (anti_symm suffix).
Qed.

Section Store.

Variable st : store.

Lemma isConnected_spec p :
  isConnected st p = true
  ↔ ∀ q, q ≠ [] → q `suffix_of` p → q ∉ detached st.
Proof.
  induction p as [|i up IH]; simpl.
  - split; [|done]. by intros _ q Hq ->%suffix_nil_inv.
  - rewrite andb_true_iff, bool_decide_eq_true, IH. split.
    + intros [Hp Hup] [|j q] Hq Hs; [done|].
      apply suffix_cons_inv in Hs as [->|Hs]; [done|by apply Hup].
    + intros H. split; [by apply H|].
      intros q Hq Hs. apply H; [done|by apply suffix_cons_r].
Qed.

Lemma isConnected_suffix p q :
  isConnected st p = true → q `suffix_of` p → isConnected st q = true.
Proof.
  rewrite !isConnected_spec. intros H Hqp r Hr Hrq. apply H; [done|by etrans].
Qed.

Lemma isConnected_detached p l :
  l ≠ [] → l `suffix_of` p → l ∈ detached st → isConnected st p = false.
Proof.
  intros Hl Hs Hd. apply not_true_is_false. rewrite isConnected_spec.
  intros H. by apply (H l).
Qed.

Lemma descends_suffix anc q : descends st anc q = true → anc `suffix_of` q.
Proof.
  induction q as [|i up IH]; simpl.
  - rewrite orb_false_r. by intros ->%bool_decide_eq_true.
  - intros [->%bool_decide_eq_true|[_ H]%andb_prop]%orb_prop; [done|].
    by apply suffix_cons_r, IH.
Qed.

Lemma closest_of_Some s p l :
  closest_of st s p = Some l →
  l `suffix_of` p ∧ l ≠ [] ∧ matches_simple s (node_at (loaded st) l) = true.
Proof.
  induction p as [|i up IH]; simpl; [done|].
  destruct (matches_simple s (childNodes_at (loaded st) up !! i)) eqn:Hm.
  - by intros [= <-].
  - case_bool_decide; [done|]. intros Hl.
    destruct (IH Hl) as (? & ? & ?). split_and!; [by apply suffix_cons_r|done..].
Qed.

Lemma closest_of_None s p :
  closest_of st s p = None → isConnected st p = true →
  ∀ q, q ≠ [] → q `suffix_of` p →
       matches_simple s (node_at (loaded st) q) = false.
Proof.
  induction p as [|i up IH]; simpl.
  - by intros _ _ q Hq ->%suffix_nil_inv.
  - destruct (matches_simple s (childNodes_at (loaded st) up !! i)) eqn:Hm;
      [done|].
    intros Hc [Hd Hup]%andb_prop. apply bool_decide_eq_true in Hd.
    rewrite bool_decide_eq_false_2 in Hc by done.
    intros [|j q] Hq Hs; [done|].
    apply suffix_cons_inv in Hs as [[= -> ->]|Hs]; [done|by apply IH].
Qed.

Lemma has_ancestor_above s p :
  has_ancestor st s p = true →
  ∃ q, above q p ∧ matches_simple s (node_at (loaded st) q) = true.
Proof.
  induction p as [|i up IH]; simpl; [done|].
  intros [_ [Hm|Hh]%orb_prop]%andb_prop.
  - exists up. split; [|done]. split; [by apply suffix_cons_r|].
    intros H. apply (f_equal length) in H. simpl in H. lia.
  - destruct (IH Hh) as (q & [Hs Hne] & Hm). exists q. split; [|done].
    split; [by apply suffix_cons_r|].
    intros ->. apply suffix_length in Hs. simpl in Hs. lia.
Qed.

Lemma has_ancestor_intro s p q :
  isConnected st p = true → above q p →
  matches_simple s (node_at (loaded st) q) = true →
  has_ancestor st s p = true.
Proof.
  induction p as [|i up IH]; simpl.
  - intros _ [->%suffix_nil_inv Hne]. done.
  - intros [Hd Hup]%andb_prop Hq Hm. rewrite Hd. simpl.
    destruct (decide (q = up)) as [->|Hne].
    + by rewrite Hm.
    + rewrite IH; [apply orb_true_r|done| |done].
      split; [by eapply above_cons|done].
Qed.

Lemma elem_of_select sel a :
  a ∈ select st sel
  ↔ a ∈ tree_order (loaded st)
    ∧ isConnected st a = true ∧ matches st sel a = true.
Proof.
  unfold select. rewrite list_elem_of_filter, andb_True, !Is_true_true.
  tauto.
Qed.

Lemma select_sorted sel : StronglySorted not_above (select st sel).
Proof. apply StronglySorted_filter_bool, tree_order_sorted. Qed.

(** An element that matches under a descendant combinator lies below an
    element of the document that matches the ancestor part. *)
Lemma select_ancestor anc s a :
  a ∈ select st (Descendant anc s) →
  ∃ q, q ∈ select st (Simple anc) ∧ above q a.
Proof.
  rewrite elem_of_select. simpl.
  intros (_ & Hc & [_ Hh]%andb_prop).
  apply has_ancestor_above in Hh as (q & Hq & Hm). exists q. split; [|done].
  apply elem_of_select. split_and!; [|by eapply isConnected_suffix, Hq|done].
  unfold matches_simple in Hm.
  destruct (node_at (loaded st) q) eqn:Hn; [|done].
  by eapply node_at_tree_order.
Qed.

End Store.

(** *** Stores that differ in their detached sets *)

Lemma descends_ext s st p q :
  (∀ r, above p r → r ∈ detached s ↔ r ∈ detached st) →
  descends s p q = descends st p q.
Proof.
  intros H. induction q as [|i up IH]; simpl; [done|].
  rewrite IH. destruct (descends st p up) eqn:Hd.
  - rewrite !andb_true_r.
    destruct (decide (i :: up = p)) as [<-|Hne].
    + by rewrite !(bool_decide_eq_true_2 (i :: up = i :: up)).
    + f_equal. apply bool_decide_ext.
      apply not_iff_compat, H. split; [|done].
      by apply suffix_cons_r, (descends_suffix st).
  - by rewrite !andb_false_r.
Qed.

Lemma text_of_ext s st p :
  loaded s = loaded st →
  (∀ r, above p r → r ∈ detached s ↔ r ∈ detached st) →
  text_of s p = text_of st p.
Proof.
  intros Hl H. unfold text_of. rewrite Hl. do 2 f_equal.
  apply list_filter_iff. intros q. by rewrite (descends_ext s st).
Qed.

Lemma closest_of_ext s st sel p :
  loaded s = loaded st →
  (∀ r, matches_simple sel (node_at (loaded st) r) = false →
        r ∈ detached s ↔ r ∈ detached st) →
  closest_of s sel p = closest_of st sel p.
Proof.
  intros Hl H. induction p as [|i up IH]; simpl; [done|].
  rewrite Hl, IH.
  destruct (matches_simple sel (childNodes_at (loaded st) up !! i)) eqn:Hm;
    [done|].
  by rewrite (bool_decide_ext _ _ (H (i :: up) Hm)).
Qed.

Lemma isConnected_mono s st p :
  detached st ⊆ detached s → isConnected s p = true → isConnected st p = true.
Proof.
  intros Hsub. rewrite !isConnected_spec. intros H q Hq Hs Hd.
  by apply (H q Hq Hs), Hsub.
Qed.

Lemma has_ancestor_mono s st sel p :
  loaded s = loaded st → detached st ⊆ detached s →
  has_ancestor s sel p = true → has_ancestor st sel p = true.
Proof.
  intros Hl Hsub. induction p as [|i up IH]; simpl; [done|].
  rewrite Hl.
  intros [Hd Hm]%andb_prop. apply bool_decide_eq_true in Hd.
  rewrite bool_decide_eq_true_2 by set_solver. simpl.
  apply orb_prop in Hm as [->|Hh]; [done|].
  rewrite IH by done. apply orb_true_r.
Qed.

Lemma select_mono s st sel a :
  loaded s = loaded st → detached st ⊆ detached s →
  a ∈ select s sel → a ∈ select st sel.
Proof.
  intros Hl Hsub. rewrite !elem_of_select, Hl.
  intros (Ht & Hc & Hm). split_and!; [done|by eapply isConnected_mono|].
  destruct sel as [x|anc x]; simpl in *; rewrite Hl in Hm; [done|].
  apply andb_prop in Hm as [-> Hh]. simpl.
  by eapply has_ancestor_mono.
Qed.

End DomFacts.

(** ** The listeners on the browser *)

Module PrunerFacts.
Import Dom TreeFacts DomFacts Pruner.

Lemma forEach_browser {A} (f : A → M store unit) (g : store → A → store) :
  (∀ a s, f a s = (Normal tt, g s a)) →
  ∀ l s, forEach l f s = (Normal tt, foldl g s l).
Proof.
  intros Hf l. induction l as [|x l IH]; intros s; simpl; [done|].
  unfold bind. by rewrite Hf, IH.
Qed.

Lemma array_find_browser {A} (f : A → M store bool) (g : store → A → bool) :
  (∀ a s, f a s = (Normal (g s a), s)) →
  ∀ l s, array_find l f s = (Normal (head (filter (g s) l)), s).
Proof.
  intros Hf l s. induction l as [|x l IH]; simpl; [done|].
  unfold bind. rewrite Hf, filter_cons.
  destruct (g s x) eqn:Hg; simpl; [done|].
  by rewrite IH.
Qed.

Lemma first_callback_browser a st :
  remove_if_dashboard_or_groups browser a st
  = (Normal tt, prune_step first_labels st a).
Proof.
  unfold remove_if_dashboard_or_groups, prune_step, target, label_match,
    first_labels, bind.
  cbn [textContent closest remove browser existsb]. rewrite orb_false_r.
  destruct (_ || _); [|done].
  by destruct (closest_of st (ByType "li") a).
Qed.

Lemma second_callback_browser a st :
  remove_if_dashboard browser a st
  = (Normal tt, prune_step second_labels st a).
Proof.
  unfold remove_if_dashboard, prune_step, target, label_match,
    second_labels, bind.
  cbn [textContent closest remove browser existsb]. rewrite orb_false_r.
  destruct (_ =? _); [|done].
  by destruct (closest_of st (ByType "li") a).
Qed.

Lemma first_pass_browser st :
  remove_dashboard_and_groups browser st = (Normal tt, prune first_labels st).
Proof.
  unfold remove_dashboard_and_groups, bind, prune. simpl.
  apply forEach_browser, first_callback_browser.
Qed.

Lemma second_pass_browser st :
  remove_dashboard browser st = (Normal tt, prune second_labels st).
Proof.
  unfold remove_dashboard, bind, prune. simpl.
  apply forEach_browser, second_callback_browser.
Qed.

Lemma find_exams_ul_browser st :
  find_exams_ul browser st = (Normal (spec_insertion_target st), st).
Proof.
  unfold find_exams_ul, spec_insertion_target, bind.
  cbn [querySelectorAll querySelector browser].
  rewrite (array_find_browser _
             (λ s h, Js.toLowerCase (Js.trim (text_of s h)) =? "exams"))
    by done.
  destruct (head _) as [h|]; simpl; [|done].
  destruct (next_element_sibling st h) as [u|]; simpl; [|done].
  by destruct (has_class st u "nav-treeview").
Qed.

Lemma first_listener_browser builder st :
  first_listener browser builder st = (Normal tt, prune first_labels st).
Proof.
  unfold first_listener, try_catch, first_body, bind.
  by rewrite first_pass_browser, find_exams_ul_browser.
Qed.

Lemma first_listener_pruner_only_browser st :
  first_listener_pruner_only browser st = (Normal tt, prune first_labels st).
Proof.
  unfold first_listener_pruner_only, try_catch.
  by rewrite first_pass_browser.
Qed.

Lemma second_listener_browser st :
  second_listener browser st = (Normal tt, prune second_labels st).
Proof.
  unfold second_listener, try_catch, second_body.
  by rewrite second_pass_browser.
Qed.

Lemma page_ready_browser builder st :
  page_ready browser builder st
  = ([], prune second_labels (prune first_labels st)).
Proof.
  by rewrite page_ready_eq, first_listener_browser, second_listener_browser.
Qed.

(** *** What a pass detaches *)

Lemma with_detached_id st : with_detached st (detached st) = st.
Proof. by destruct st. Qed.

Lemma detach_eq st l :
  l ≠ [] → detach st l = with_detached st ({[l]} ∪ detached st).
Proof.
  intros Hl. destruct l as [|i up]; [done|].
  unfold detach, parentNode. case_bool_decide as Hd; [|done].
  assert ({[i :: up]} ∪ detached st = detached st) as -> by set_solver.
  by rewrite with_detached_id.
Qed.

Lemma target_Some labels st a l :
  target labels st a = Some l
  ↔ label_match labels (text_of st a) = true
    ∧ closest_of st (ByType "li") a = Some l.
Proof. unfold target. destruct (label_match _ _); naive_solver. Qed.

Lemma elem_of_pruned_items labels st l :
  l ∈ pruned_items labels st
  ↔ ∃ a, a ∈ select st sidebar_anchors
         ∧ label_match labels (text_of st a) = true
         ∧ closest_of st (ByType "li") a = Some l.
Proof.
  unfold pruned_items. rewrite list_elem_of_omap.
  setoid_rewrite target_Some. naive_solver.
Qed.

Lemma target_list_item labels st a l :
  target labels st a = Some l →
  l `suffix_of` a ∧ l ≠ []
  ∧ matches_simple (ByType "li") (node_at (loaded st) l) = true.
Proof. intros [_ H]%target_Some. by apply closest_of_Some in H. Qed.

Lemma target_visited labels st done a :
  Forall (λ x, not_above x a) done →
  target labels (visited labels st done) a = target labels st a.
Proof.
  intros Hdone. unfold target.
  rewrite (text_of_ext (visited labels st done) st),
    (closest_of_ext (visited labels st done) st); [done..| |done|].
  - intros r Hr. simpl. rewrite elem_of_union, elem_of_list_to_set.
    split; [|by left]. intros [?|Hin]; [done|].
    apply list_elem_of_omap in Hin as (x & Hx & Ht).
    apply target_list_item in Ht as (_ & _ & Hli). congruence.
  - intros r Hr. simpl. rewrite elem_of_union, elem_of_list_to_set.
    split; [|by left]. intros [?|Hin]; [done|].
    apply list_elem_of_omap in Hin as (x & Hx & Ht).
    apply target_list_item in Ht as (Hs & _ & _).
    eapply Forall_forall in Hdone; [|done].
    destruct Hdone. by eapply above_trans_r.
Qed.

Lemma prune_fold labels st done rest :
  StronglySorted not_above (done ++ rest) →
  foldl (prune_step labels) (visited labels st done) rest
  = visited labels st (done ++ rest).
Proof.
  revert done. induction rest as [|a rest IH]; intros done Hs; simpl.
  - by rewrite app_nil_r.
  - assert (Ha : Forall (λ x, not_above x a) done).
    { apply Forall_forall. intros x Hx.
      eapply StronglySorted_app_1_elem_of; [done..|set_solver]. }
    replace (prune_step labels (visited labels st done) a)
      with (visited labels st (done ++ [a])).
    { rewrite IH, <- (assoc_L (++)); [done|]. by rewrite <- (assoc_L (++)). }
    unfold prune_step. rewrite target_visited by done.
    unfold visited. rewrite omap_app, list_to_set_app_L. simpl.
    destruct (target labels st a) as [l|] eqn:Ht; simpl.
    + rewrite detach_eq by (by apply target_list_item in Ht as (_ & ? & _)).
      unfold with_detached. simpl. f_equal. set_solver.
    + f_equal. set_solver.
Qed.

Lemma prune_eq labels st :
  prune labels st
  = with_detached st (detached st ∪ list_to_set (pruned_items labels st)).
Proof.
  pose proof (prune_fold labels st [] (select st sidebar_anchors)
                (select_sorted _ _)) as H.
  unfold visited in H. simpl in H.
  by rewrite (right_id_L ∅ (∪)), with_detached_id in H.
Qed.

Lemma loaded_prune labels st : loaded (prune labels st) = loaded st.
Proof. by rewrite prune_eq. Qed.

Lemma console_prune labels st : console (prune labels st) = console st.
Proof. by rewrite prune_eq. Qed.

Lemma detached_prune labels st r :
  r ∈ detached (prune labels st)
  ↔ r ∈ detached st ∨ r ∈ pruned_items labels st.
Proof. rewrite prune_eq. simpl. by rewrite elem_of_union, elem_of_list_to_set. Qed.

Lemma pruned_item_list_item labels st l :
  l ∈ pruned_items labels st →
  l ≠ [] ∧ matches_simple (ByType "li") (node_at (loaded st) l) = true.
Proof.
  intros (a & _ & Hm & Hc)%elem_of_pruned_items.
  by apply closest_of_Some in Hc as (_ & ? & ?).
Qed.

Lemma inside_true items p :
  inside items p = true ↔ ∃ l, l ∈ items ∧ l `suffix_of` p.
Proof. unfold inside. by rewrite bool_decide_eq_true, Exists_exists. Qed.

Lemma isConnected_prune labels st p :
  isConnected (prune labels st) p = true
  ↔ isConnected st p = true ∧ inside (pruned_items labels st) p = false.
Proof.
  rewrite !isConnected_spec, <- not_true_iff_false, inside_true. split.
  - intros H. split.
    + intros q Hq Hs Hd. apply (H q Hq Hs), detached_prune. by left.
    + intros (l & Hl & Hs).
      apply (H l); [by apply pruned_item_list_item in Hl as [? _]|done|].
      apply detached_prune. by right.
  - intros [H Hin] q Hq Hs [Hd|Hd]%detached_prune; [by apply (H q)|].
    apply Hin. by exists q.
Qed.

(** A pass whose callbacks all find nothing to remove changes nothing. *)
Lemma prune_id labels st :
  (∀ a, a ∈ select st sidebar_anchors → target labels st a = None) →
  prune labels st = st.
Proof.
  intros H. rewrite prune_eq.
  assert (pruned_items labels st = []) as ->.
  { apply elem_of_nil_inv. intros l (a & Ha & Ht)%list_elem_of_omap.
    by rewrite H in Ht. }
  simpl. by rewrite (right_id_L ∅ (∪)), with_detached_id.
Qed.

End PrunerFacts.

(** ** Repeated passes *)

Module RepeatFacts.
Import Dom TreeFacts DomFacts Pruner PrunerFacts.

Lemma isConnected_page t p : isConnected (page t) p = true.
Proof. apply isConnected_spec. intros q _ _. apply not_elem_of_empty. Qed.

Lemma label_match_second_first t :
  label_match second_labels t = true → label_match first_labels t = true.
Proof.
  unfold label_match, second_labels, first_labels. simpl.
  rewrite !orb_false_r. by intros ->.
Qed.

Lemma select_anchor st a :
  a ∈ select st sidebar_anchors →
  a ∈ tree_order (loaded st)
  ∧ isConnected st a = true
  ∧ matches_simple (ByType "a") (node_at (loaded st) a) = true.
Proof.
  intros (Ht & Hc & [Hm _]%andb_prop)%elem_of_select. done.
Qed.

Lemma no_nested_above t a b :
  no_nested_anchors t = true → a ∈ tree_order t →
  matches_simple (ByType "a") (node_at t a) = true →
  matches_simple (ByType "a") (node_at t b) = true →
  ¬ above b a.
Proof.
  unfold no_nested_anchors. rewrite forallb_forall.
  intros H Ha%list_elem_of_In Hma Hmb Hab.
  specialize (H a Ha). rewrite Hma in H. simpl in H.
  rewrite (has_ancestor_intro (page t) _ a b) in H;
    [done|apply isConnected_page|done..].
Qed.

(** On a tree without nested anchors a pass leaves the text of the anchors
    that stay in the document as it was. *)
Lemma text_of_prune labels st b :
  no_nested_anchors (loaded st) = true →
  matches_simple (ByType "a") (node_at (loaded st) b) = true →
  text_of (prune labels st) b = text_of st b.
Proof.
  intros Hnn Hb. apply text_of_ext; [apply loaded_prune|].
  intros r Hr. rewrite detached_prune. split; [|by left].
  intros [?|(x & Hx & _ & Hc)%elem_of_pruned_items]; [done|].
  apply select_anchor in Hx as (Hxt & _ & Hxa).
  apply closest_of_Some in Hc as (Hs & _ & _).
  destruct (no_nested_above (loaded st) x b); [done..|].
  by eapply above_trans_r.
Qed.

Lemma closest_of_prune labels st b :
  closest_of (prune labels st) (ByType "li") b
  = closest_of st (ByType "li") b.
Proof.
  apply closest_of_ext; [apply loaded_prune|].
  intros r Hr. rewrite detached_prune. split; [|by left].
  intros [?|[_ Hli]%pruned_item_list_item]; [done|congruence].
Qed.

Lemma detached_prune_subseteq labels st :
  detached st ⊆ detached (prune labels st).
Proof. intros r Hr. apply detached_prune. by left. Qed.

(** After a pass, a sidebar anchor of the document whose text matches has no
    enclosing list item. *)
Lemma matching_anchor_after_prune labels' labels st b :
  (∀ t, label_match labels' t = true → label_match labels t = true) →
  no_nested_anchors (loaded st) = true →
  b ∈ select (prune labels st) sidebar_anchors →
  target labels' (prune labels st) b = None.
Proof.
  intros Hsub Hnn Hb. unfold target.
  assert (Hb' : b ∈ select st sidebar_anchors).
  { eapply select_mono, Hb;
      [apply loaded_prune|apply detached_prune_subseteq]. }
  destruct (select_anchor _ _ Hb') as (_ & _ & Hba).
  apply select_anchor in Hb as (_ & Hc & _).
  rewrite text_of_prune, closest_of_prune by done.
  destruct (label_match labels' (text_of st b)) eqn:Hm; [|done].
  destruct (closest_of st (ByType "li") b) as [l|] eqn:Hl; [|done].
  exfalso. apply isConnected_prune in Hc as [_ Hin].
  apply not_true_iff_false in Hin. apply Hin, inside_true.
  exists l. split; [|by apply closest_of_Some in Hl as (? & _)].
  apply elem_of_pruned_items. exists b. auto.
Qed.

Lemma prune_absorbs labels' labels st :
  (∀ t, label_match labels' t = true → label_match labels t = true) →
  no_nested_anchors (loaded st) = true →
  prune labels' (prune labels st) = prune labels st.
Proof.
  intros Hsub Hnn. apply prune_id. intros b Hb.
  by eapply matching_anchor_after_prune.
Qed.

(** Only list items are detached by a pass. *)
Lemma detached_prune_list_item labels st r :
  r ∈ detached (prune labels st) →
  r ∈ detached st
  ∨ matches_simple (ByType "li") (node_at (loaded st) r) = true.
Proof.
  intros [?|[_ ?]%pruned_item_list_item]%detached_prune; auto.
Qed.

(** A connected node without inclusive ancestor [li] stays connected. *)
Lemma isConnected_prune_no_list_item labels st p :
  isConnected st p = true →
  closest_of st (ByType "li") p = None →
  isConnected (prune labels st) p = true
  ∧ closest_of (prune labels st) (ByType "li") p = None.
Proof.
  intros Hc Hn. split; [|by rewrite closest_of_prune].
  apply isConnected_spec. intros q Hq Hs Hd.
  apply detached_prune_list_item in Hd as [Hd|Hli].
  - by eapply isConnected_spec in Hc.
  - by rewrite (closest_of_None st _ p Hn Hc q) in Hli.
Qed.

End RepeatFacts.

(** * The claims *)

Import Dom TreeFacts DomFacts Pruner PrunerFacts RepeatFacts Examples.

Ltac by_evaluation := apply (bool_decide_unpack _); vm_compute; exact I.

(** The example of the specification: of Dashboard, Groups and Reports only
    the Reports item is left. *)
Example sidebar3_ready :
  document (snd (page_ready browser no_builder (page sidebar3)))
  = [Element "ul" ["nav"; "nav-sidebar"] [item "Reports"]].
Proof. by vm_compute. Qed.

(** C1, as stated, fails: the Dashboard item of [nested_menu] holds a
    sub-menu, and the Reports item of that sub-menu, whose text matches no
    label, leaves the document with it. *)
Lemma submenu_item_goes_with_its_parent :
  let st := page nested_menu in
  let st' := snd (first_listener browser no_builder st) in
  [0; 0; 1; 0; 0] ∈ select st sidebar_anchors
  ∧ text_of st [0; 0; 1; 0; 0] = "Reports"
  ∧ label_match first_labels (text_of st [0; 0; 1; 0; 0]) = false
  ∧ isConnected st [0; 0; 1; 0; 0] = true
  ∧ isConnected st' [0; 0; 1; 0; 0] = false
  ∧ document st' = [Element "ul" ["nav"; "nav-sidebar"] []].
Proof. split_and!; [by_evaluation|by vm_compute..]. Qed.

(** C1 (amended): the first listener ends normally and adds no node; it
    takes out of the document the nearest enclosing [li] of every sidebar
    anchor whose trimmed, lower-cased text is "dashboard" or "groups", and
    the anchor with it; every node of the document that is none of these
    list items and lies in none of them remains in the document. *)
Theorem first_listener_prunes (builder : DomBuilder store ref) (st : store) :
  let st' := snd (first_listener browser builder st) in
  fst (first_listener browser builder st) = Normal tt
  ∧ loaded st' = loaded st
  ∧ (∀ a l,
       a ∈ select st sidebar_anchors →
       label_match first_labels (text_of st a) = true →
       closest_of st (ByType "li") a = Some l →
       l `suffix_of` a
       ∧ matches_simple (ByType "li") (node_at (loaded st) l) = true
       ∧ isConnected st' l = false ∧ isConnected st' a = false)
  ∧ (∀ p,
       isConnected st p = true →
       inside (pruned_items first_labels st) p = false →
       isConnected st' p = true)
  ∧ (∀ p,
       inside (pruned_items first_labels st) p = true
       ↔ ∃ a l, a ∈ select st sidebar_anchors
                ∧ label_match first_labels (text_of st a) = true
                ∧ closest_of st (ByType "li") a = Some l
                ∧ l `suffix_of` p).
Proof.
  rewrite first_listener_browser. simpl. split_and!; [done|apply loaded_prune|..].
  - intros a l Ha Hm Hl.
    assert (Hin : l ∈ pruned_items first_labels st).
    { apply elem_of_pruned_items. by exists a. }
    destruct (closest_of_Some _ _ _ _ Hl) as (Hs & Hne & Hli).
    assert (Hd : l ∈ detached (prune first_labels st)).
    { apply detached_prune. by right. }
    split_and!; [done..| |]; by eapply isConnected_detached.
  - intros p Hc Hin. by apply isConnected_prune.
  - intros p. rewrite inside_true. setoid_rewrite elem_of_pruned_items.
    naive_solver.
Qed.

Lemma first_listener_prunes_witness :
  let st := page sidebar3 in
  let st' := snd (first_listener browser no_builder st) in
  ([0; 0; 0] ∈ select st sidebar_anchors
   ∧ label_match first_labels (text_of st [0; 0; 0]) = true
   ∧ closest_of st (ByType "li") [0; 0; 0] = Some [0; 0])
  ∧ (isConnected st [0; 2; 0] = true
     ∧ inside (pruned_items first_labels st) [0; 2; 0] = false)
  ∧ isConnected st' [0; 0] = false
  ∧ isConnected st' [0; 2; 0] = true.
Proof.
  intros st st'.
  assert (H1 : [0; 0; 0] ∈ select st sidebar_anchors) by by_evaluation.
  assert (H2 : label_match first_labels (text_of st [0; 0; 0]) = true)
    by (by vm_compute).
  assert (H3 : closest_of st (ByType "li") [0; 0; 0] = Some [0; 0])
    by (by vm_compute).
  assert (H4 : isConnected st [0; 2; 0] = true) by (by vm_compute).
  assert (H5 : inside (pruned_items first_labels st) [0; 2; 0] = false)
    by (by vm_compute).
  destruct (first_listener_prunes no_builder st) as (_ & _ & Hrm & Hkeep & _).
  split_and!; [exact H1|exact H2|exact H3|exact H4|exact H5| |].
  - exact (proj1 (proj2 (proj2 (Hrm _ _ H1 H2 H3)))).
  - exact (Hkeep _ H4 H5).
Defined.

(** C2, as stated, fails in both directions.  In [shared_item] the link
    Reports shares its list item with the link Dashboard: its text matches
    no label, yet it leaves the document.  In [bare_links] the text of the
    link Dashboard matches, yet the link stays, for want of a list item. *)
Lemma unmatched_link_leaves_with_shared_item :
  (let st := page shared_item in
   let st' := snd (first_listener browser no_builder st) in
   [1; 0; 0] ∈ select st sidebar_anchors
   ∧ Js.toLowerCase (Js.trim (text_of st [1; 0; 0])) = "reports"
   ∧ label_match first_labels (text_of st [1; 0; 0]) = false
   ∧ isConnected st [1; 0; 0] = true
   ∧ isConnected st' [1; 0; 0] = false)
  ∧ (let st := page bare_links in
     let st' := snd (first_listener browser no_builder st) in
     [0; 0] ∈ select st sidebar_anchors
     ∧ label_match first_labels (text_of st [0; 0]) = true
     ∧ isConnected st' [0; 0] = true).
Proof.
  split; (split_and!; [by_evaluation|by vm_compute..]).
Qed.

(** C2 (amended): the test of the pruner passes exactly on the texts that
    are a label up to case with white space around it, so " Dashboard "
    passes; the callback called for an anchor that has an enclosing [li]
    detaches the nearest one if and only if the text of the anchor passes
    the test, and the callback changes nothing when the text does not pass;
    after the listener a sidebar anchor is out of the document if and only
    if it lies in the list item of an anchor whose text passes the test. *)
Theorem match_is_trimmed_and_caseless
    (builder : DomBuilder store ref) (st : store) (a l : ref) (t : string) :
  (label_match first_labels t = true
   ↔ ∃ ws1 u ws2,
       t = (ws1 ++ u ++ ws2)%string
       ∧ Js.blank ws1 = true ∧ Js.blank ws2 = true
       ∧ (Js.toLowerCase u = "dashboard" ∨ Js.toLowerCase u = "groups"))
  ∧ label_match first_labels " Dashboard " = true
  ∧ (closest_of st (ByType "li") a = Some l → l ∉ detached st →
     (l ∈ detached (snd (remove_if_dashboard_or_groups browser a st))
      ↔ label_match first_labels (text_of st a) = true))
  ∧ (label_match first_labels (text_of st a) = false →
     remove_if_dashboard_or_groups browser a st = (Normal tt, st))
  ∧ (a ∈ select st sidebar_anchors →
     (isConnected (snd (first_listener browser builder st)) a = false
      ↔ inside (pruned_items first_labels st) a = true)).
Proof.
  split_and!.
  - unfold label_match, first_labels. simpl. rewrite orb_false_r, orb_true_iff.
    rewrite !String.eqb_eq. split.
    + intros H. destruct (JsFacts.trim_split t) as (ws1 & ws2 & Ht & H1 & H2).
      exists ws1, (Js.trim t), ws2. done.
    + intros (ws1 & u & ws2 & -> & H1 & H2 & Hu).
      rewrite JsFacts.trim_padded; [done..|].
      apply JsFacts.trim_fixed_lower. by destruct Hu as [-> | ->].
  - by vm_compute.
  - intros Hl Hd. rewrite first_callback_browser. cbn [snd].
    unfold prune_step, target. rewrite Hl.
    destruct (label_match first_labels (text_of st a)).
    + rewrite detach_eq by (by apply closest_of_Some in Hl as (_ & ? & _)).
      cbn [detached with_detached]. split; [done|intros _; set_solver].
    + by split.
  - intros Hm. rewrite first_callback_browser.
    unfold prune_step, target. by rewrite Hm.
  - intros (_ & Hc & _)%select_anchor. rewrite first_listener_browser.
    cbn [snd]. rewrite <- not_true_iff_false, isConnected_prune, Hc.
    destruct (inside _ a); naive_solver.
Qed.

Lemma match_is_trimmed_and_caseless_witness :
  let st := page shared_item in
  (closest_of st (ByType "li") [0; 0; 0] = Some [0; 0]
   ∧ ([0; 0] ∉ detached st)
   ∧ label_match first_labels (text_of st [1; 0; 0]) = false
   ∧ [1; 0; 0] ∈ select st sidebar_anchors)
  ∧ label_match first_labels (text_of st [0; 0; 0]) = true
  ∧ [0; 0] ∈ detached (snd (remove_if_dashboard_or_groups browser [0; 0; 0] st))
  ∧ remove_if_dashboard_or_groups browser [1; 0; 0] st = (Normal tt, st)
  ∧ isConnected (snd (first_listener browser no_builder st)) [1; 0; 0] = false.
Proof.
  intros st.
  assert (H1 : closest_of st (ByType "li") [0; 0; 0] = Some [0; 0])
    by (by vm_compute).
  assert (H2 : [0; 0] ∉ detached st) by by_evaluation.
  assert (H3 : label_match first_labels (text_of st [1; 0; 0]) = false)
    by (by vm_compute).
  assert (H4 : [1; 0; 0] ∈ select st sidebar_anchors) by by_evaluation.
  assert (H5 : label_match first_labels (text_of st [0; 0; 0]) = true)
    by (by vm_compute).
  assert (H6 : inside (pruned_items first_labels st) [1; 0; 0] = true)
    by (by vm_compute).
  destruct (match_is_trimmed_and_caseless no_builder st [0; 0; 0] [0; 0]
              " Dashboard ") as (_ & _ & Hiff & _ & _).
  destruct (match_is_trimmed_and_caseless no_builder st [1; 0; 0] [0; 0]
              " Dashboard ") as (_ & _ & _ & Hsame & Hout).
  split_and!; [exact H1|exact H2|exact H3|exact H4|exact H5| | |].
  - exact (proj2 (Hiff H1 H2) H5).
  - exact (Hsame H3).
  - exact (proj2 (Hout H4) H6).
Defined.

(** C3, as stated, fails: on a page without sidebar the listeners end
    normally, and nothing is logged. *)
Lemma no_sidebar_logs_nothing :
  let st := page no_sidebar in
  select st (Simple (ByClass "nav-sidebar")) = []
  ∧ first_listener browser no_builder st = (Normal tt, st)
  ∧ console (snd (first_listener browser no_builder st)) = []
  ∧ console (snd (page_ready browser no_builder st)) = [].
Proof. split_and!; by vm_compute. Qed.

(** C3 (amended): when no element of the document carries the class
    [nav-sidebar], each listener ends normally without having changed the
    page or logged anything, and nothing is reported to the caller. *)
Theorem absent_sidebar_is_silent (builder : DomBuilder store ref) (st : store) :
  select st (Simple (ByClass "nav-sidebar")) = [] →
  first_listener browser builder st = (Normal tt, st)
  ∧ second_listener browser st = (Normal tt, st)
  ∧ page_ready browser builder st = ([], st)
  ∧ console (snd (page_ready browser builder st)) = console st.
Proof.
  intros Hno.
  assert (Hnone : select st sidebar_anchors = []).
  { apply elem_of_nil_inv. intros a (q & Hq & _)%select_ancestor.
    rewrite Hno in Hq. by apply elem_of_nil in Hq. }
  assert (Hid : ∀ labels, prune labels st = st).
  { intros labels. unfold prune. by rewrite Hnone. }
  rewrite page_ready_browser, first_listener_browser, second_listener_browser.
  by rewrite !Hid.
Qed.

Lemma absent_sidebar_is_silent_witness :
  select (page no_sidebar) (Simple (ByClass "nav-sidebar")) = []
  ∧ page_ready browser no_builder (page no_sidebar) = ([], page no_sidebar).
Proof.
  assert (H : select (page no_sidebar) (Simple (ByClass "nav-sidebar")) = [])
    by (by vm_compute).
  split; [exact H|].
  exact (proj1 (proj2 (proj2 (absent_sidebar_is_silent no_builder _ H)))).
Defined.

(** C4, as stated, fails.  In [nested_anchors] a link holds a list item with
    a link of its own: the first run removes the inner item, which makes the
    text of the outer link match, and a second run removes the outer item.
    In [bare_links] the link Dashboard has no enclosing list item and is
    still in the sidebar after a run. *)
Lemma second_run_removes_more :
  let once := snd (first_listener browser no_builder (page nested_anchors)) in
  let twice := snd (first_listener browser no_builder once) in
  document once
  = [Element "ul" ["nav-sidebar"]
       [Element "li" ["nav-item"] [Element "a" ["nav-link"] [Text "Groups"]]]]
  ∧ document twice = [Element "ul" ["nav-sidebar"] []]
  ∧ document twice ≠ document once
  ∧ (let st' := snd (first_listener browser no_builder (page bare_links)) in
     [0; 0] ∈ select st' sidebar_anchors
     ∧ label_match first_labels (text_of st' [0; 0]) = true).
Proof.
  split_and!; [by vm_compute..|].
  split; [by_evaluation|by vm_compute].
Qed.

(** C4 (amended): on a page in which no link lies inside another link,
    running a listener, or both, a second time changes nothing: after the
    first run every sidebar anchor of the document whose text matches a
    label has no enclosing list item, so the second run finds nothing to
    remove. *)
Theorem second_run_changes_nothing
    (builder : DomBuilder store ref) (st : store) :
  no_nested_anchors (loaded st) = true →
  let once := snd (first_listener browser builder st) in
  let ready := snd (page_ready browser builder st) in
  first_listener browser builder once = (Normal tt, once)
  ∧ page_ready browser builder ready = ([], ready)
  ∧ document (snd (first_listener browser builder once)) = document once
  ∧ (∀ a, a ∈ select once sidebar_anchors →
          label_match first_labels (text_of once a) = true →
          closest_of once (ByType "li") a = None).
Proof.
  intros Hnn once ready. subst once ready.
  rewrite page_ready_browser, !first_listener_browser. cbn [snd].
  rewrite page_ready_browser.
  assert (H21 : prune second_labels (prune first_labels st)
                = prune first_labels st).
  { by apply prune_absorbs; [apply label_match_second_first|]. }
  assert (H11 : prune first_labels (prune first_labels st)
                = prune first_labels st) by (by apply prune_absorbs).
  repeat first [rewrite H21 | rewrite H11 | progress cbn [snd]].
  split_and!; [done..|].
  intros a Ha Hm.
  pose proof (matching_anchor_after_prune first_labels first_labels st a
                (λ _ H, H) Hnn Ha) as Ht.
  unfold target in Ht. by rewrite Hm in Ht.
Qed.

Lemma second_run_changes_nothing_witness :
  no_nested_anchors (loaded (page nested_menu)) = true
  ∧ page_ready browser no_builder
      (snd (page_ready browser no_builder (page nested_menu)))
    = ([], snd (page_ready browser no_builder (page nested_menu))).
Proof.
  assert (H : no_nested_anchors (loaded (page nested_menu)) = true)
    by (by vm_compute).
  split; [exact H|].
  exact (proj1 (proj2 (second_run_changes_nothing no_builder _ H))).
Defined.

(** C5: when the text of no sidebar anchor matches a label, each listener
    ends normally and leaves the page as it is, and nothing is reported to
    the caller. *)
Theorem no_match_no_change (builder : DomBuilder store ref) (st : store) :
  Forall (λ a, label_match first_labels (text_of st a) = false)
    (select st sidebar_anchors) →
  first_listener browser builder st = (Normal tt, st)
  ∧ second_listener browser st = (Normal tt, st)
  ∧ page_ready browser builder st = ([], st)
  ∧ document (snd (page_ready browser builder st)) = document st.
Proof.
  intros Hno.
  assert (Hid : ∀ labels,
             (∀ t, label_match labels t = true
                   → label_match first_labels t = true) →
             prune labels st = st).
  { intros labels Hsub. apply prune_id. intros a Ha.
    eapply Forall_forall in Hno; [|done]. unfold target.
    destruct (label_match labels (text_of st a)) eqn:Hm; [|done].
    apply Hsub in Hm. congruence. }
  rewrite page_ready_browser, first_listener_browser, second_listener_browser.
  rewrite (Hid first_labels) by done.
  by rewrite (Hid second_labels) by apply label_match_second_first.
Qed.

Lemma no_match_no_change_witness :
  let st := page [Element "ul" ["nav-sidebar"] [item "Reports"; item "Exams"]] in
  Forall (λ a, label_match first_labels (text_of st a) = false)
    (select st sidebar_anchors)
  ∧ page_ready browser no_builder st = ([], st).
Proof.
  intros st.
  assert (H : Forall (λ a, label_match first_labels (text_of st a) = false)
                (select st sidebar_anchors)) by by_evaluation.
  split; [exact H|].
  exact (proj1 (proj2 (proj2 (no_match_no_change no_builder _ H)))).
Defined.

(** C7: the section locator ends normally without changing the page, and
    its result is the element sibling that follows the first sidebar header
    whose trimmed, lower-cased text is "exams" when that sibling exists and
    carries [nav-treeview]; in every other case it is the first element of
    the document that carries [nav-sidebar], or null when there is none. *)
Theorem locator_finds_exams_list (st : store) :
  find_exams_ul browser st = (Normal (spec_insertion_target st), st).
Proof. apply find_exams_ul_browser. Qed.

(** The locator on pages with and without an Exams section. *)
Example locator_runs :
  fst (find_exams_ul browser (page exams_section)) = Normal (Some [3; 0])
  ∧ fst (find_exams_ul browser (page sidebar3)) = Normal (Some [0])
  ∧ fst (find_exams_ul browser (page no_sidebar)) = Normal None.
Proof. split_and!; by vm_compute. Qed.

(** C8: [addItem] is never called: whatever the operations it would use do,
    the first listener and the whole script leave the page exactly as the
    script without section locator and without [addItem] does; the tree of
    nodes is the one that was loaded, so no item is ever appended. *)
Theorem addItem_is_dead_code (builder : DomBuilder store ref) (st : store) :
  first_listener browser builder st = first_listener_pruner_only browser st
  ∧ page_ready browser builder st = page_ready_pruner_only browser st
  ∧ loaded (snd (page_ready browser builder st)) = loaded st.
Proof.
  rewrite page_ready_browser, page_ready_pruner_only_eq.
  rewrite first_listener_browser, first_listener_pruner_only_browser.
  rewrite second_listener_browser. cbn [snd].
  by rewrite !loaded_prune.
Qed.

(** C9, as stated, fails: the script registers two listeners, so one
    [DOMContentLoaded] event runs the pass over the sidebar anchors twice. *)
Lemma ready_runs_two_passes :
  snd (snd (page_ready (counting browser) no_builder (page sidebar3, 0))) = 2
  ∧ snd (snd (page_ready (counting browser) no_builder (page sidebar3, 0))) ≠ 1.
Proof. split; by vm_compute. Qed.

(** C9 (amended): one [DOMContentLoaded] event runs each of the two
    registered listeners once, the first then the second, so the sidebar
    anchors are queried exactly twice, whatever the calls of the interface
    do; the listeners share nothing but the page; an event of another type
    runs nothing. *)
Theorem ready_runs_each_listener_once {S R : Type}
    (dom : DomApi S R) (builder : DomBuilder S R)
    (counted_builder : DomBuilder (S * nat) R)
    (s : S) (n : nat) (type : string) :
  snd (snd (page_ready (counting dom) counted_builder (s, n))) = n + 2
  ∧ page_ready dom builder s
    = ([], snd (second_listener dom (snd (first_listener dom builder s))))
  ∧ dispatchEvent type (script dom builder []) s
    = if type =? "DOMContentLoaded" then page_ready dom builder s else ([], s).
Proof.
  split_and!.
  - rewrite page_ready_eq. cbn [snd].
    destruct (first_listener (counting dom) counted_builder (s, n))
      as [o [s1 n1]] eqn:H1.
    pose proof (first_listener_counts_once dom counted_builder s n) as Hn1.
    rewrite H1 in Hn1. simpl in Hn1. subst n1. cbn [snd].
    rewrite second_listener_counts_once. lia.
  - apply page_ready_eq.
  - unfold page_ready, script, addEventListener. cbn [app dispatchEvent].
    rewrite (String.eqb_sym type).
    destruct ("DOMContentLoaded" =? type) eqn:Hty; [|done].
    by rewrite String.eqb_refl.
Qed.

(** C10: for a sidebar anchor whose text matches a label and which has no
    enclosing list item, the callback of either listener ends normally and
    leaves the page as it is, and the anchor is still in the document after
    the first listener and after both. *)
Theorem bare_anchor_is_kept
    (builder : DomBuilder store ref) (st : store) (a : ref) :
  a ∈ select st sidebar_anchors →
  label_match first_labels (text_of st a) = true →
  closest_of st (ByType "li") a = None →
  remove_if_dashboard_or_groups browser a st = (Normal tt, st)
  ∧ remove_if_dashboard browser a st = (Normal tt, st)
  ∧ fst (first_listener browser builder st) = Normal tt
  ∧ isConnected (snd (first_listener browser builder st)) a = true
  ∧ fst (page_ready browser builder st) = []
  ∧ isConnected (snd (page_ready browser builder st)) a = true.
Proof.
  intros (_ & Hc & _)%select_anchor Hm Hn.
  rewrite first_callback_browser, second_callback_browser.
  rewrite first_listener_browser, page_ready_browser. cbn [fst snd].
  unfold prune_step, target. rewrite Hn.
  destruct (isConnected_prune_no_list_item first_labels st a Hc Hn)
    as [Hc1 Hn1].
  destruct (isConnected_prune_no_list_item second_labels _ a Hc1 Hn1)
    as [Hc2 _].
  split_and!; try done.
  - by destruct (label_match first_labels (text_of st a)).
  - by destruct (label_match second_labels (text_of st a)).
Qed.

Lemma bare_anchor_is_kept_witness :
  let st := page bare_links in
  ([0; 0] ∈ select st sidebar_anchors
   ∧ label_match first_labels (text_of st [0; 0]) = true
   ∧ closest_of st (ByType "li") [0; 0] = None)
  ∧ remove_if_dashboard_or_groups browser [0; 0] st = (Normal tt, st)
  ∧ isConnected (snd (page_ready browser no_builder st)) [0; 0] = true.
Proof.
  intros st.
  assert (H1 : [0; 0] ∈ select st sidebar_anchors) by by_evaluation.
  assert (H2 : label_match first_labels (text_of st [0; 0]) = true)
    by (by vm_compute).
  assert (H3 : closest_of st (ByType "li") [0; 0] = None) by (by vm_compute).
  destruct (bare_anchor_is_kept no_builder st [0; 0] H1 H2 H3)
    as (Hcb & _ & _ & _ & _ & Hc).
  split_and!; [exact H1|exact H2|exact H3|exact Hcb|exact Hc].
Defined.

(** * Further properties of the script *)

(** ** The normalisation of the text *)

Module NormalFacts.
Import Js JsFacts.

#[local] Arguments String.append !_ _ / : simpl nomatch.

Lemma lower_char_idem c : lower_char (lower_char c) = lower_char c.
Proof. by destruct c as [[] [] [] [] [] [] [] []]. Qed.

Lemma toLowerCase_idem s : toLowerCase (toLowerCase s) = toLowerCase s.
Proof.
  induction s as [|c s IH]; simpl; [done|]. by rewrite lower_char_idem, IH.
Qed.

Lemma trimStart_append s ws :
  blank ws = true →
  trimStart (s ++ ws)%string
  = if blank s then EmptyString else (trimStart s ++ ws)%string.
Proof.
  intros Hws. induction s as [|c s IH]; simpl.
  - by apply trimStart_blank_all.
  - by destruct (is_whitespace c).
Qed.

Lemma trim_padding ws1 s ws2 :
  blank ws1 = true → blank ws2 = true →
  trim (ws1 ++ s ++ ws2)%string = trim s.
Proof.
  intros H1 H2. unfold trim.
  rewrite trimStart_blank, trimStart_append by done.
  destruct (blank s) eqn:Hs.
  - by rewrite trimStart_blank_all.
  - by rewrite trimEnd_blank.
Qed.

Lemma trim_idem s : trim (trim s) = trim s.
Proof.
  destruct (trim_split s) as (ws1 & ws2 & Hs & H1 & H2).
  rewrite Hs at 2. by rewrite trim_padding.
Qed.

Lemma normal_idem s :
  toLowerCase (trim (toLowerCase (trim s))) = toLowerCase (trim s).
Proof. by rewrite (trim_toLowerCase (trim s)), trim_idem, toLowerCase_idem. Qed.

End NormalFacts.

(** X1: white space around the text of an anchor and the case of its
    letters never change the outcome of the test of a callback, whatever the
    labels; normalising a text twice gives what normalising it once gives. *)
Theorem match_ignores_padding_and_case
    (labels : list string) (ws1 t ws2 : string) :
  Js.blank ws1 = true → Js.blank ws2 = true →
  label_match labels (ws1 ++ t ++ ws2)%string = label_match labels t
  ∧ label_match labels (Js.toLowerCase t) = label_match labels t
  ∧ label_match labels (Js.toLowerCase (Js.trim t)) = label_match labels t.
Proof.
  intros H1 H2. unfold label_match. split_and!.
  - by rewrite NormalFacts.trim_padding.
  - by rewrite JsFacts.trim_toLowerCase, NormalFacts.toLowerCase_idem.
  - by rewrite NormalFacts.normal_idem.
Qed.

Lemma match_ignores_padding_and_case_witness :
  (Js.blank "  " = true ∧ Js.blank newline = true)
  ∧ label_match second_labels ("  " ++ "DashBoard" ++ newline)%string
    = label_match second_labels "DashBoard".
Proof.
  assert (H1 : Js.blank "  " = true) by (by vm_compute).
  assert (H2 : Js.blank newline = true) by (by vm_compute).
  split; [exact (conj H1 H2)|].
  exact (proj1 (match_ignores_padding_and_case second_labels _ "DashBoard" _
                  H1 H2)).
Defined.

(** ** Earlier listeners *)

Section DispatchFacts.

Context {S R : Type}.
Variable dom : DomApi S R.
Variable builder : DomBuilder S R.

Lemma dispatchEvent_app type (reg1 reg2 : listeners) (s : S) :
  dispatchEvent type (reg1 ++ reg2) s
  = let '(es1, s1) := dispatchEvent type reg1 s in
    let '(es2, s2) := dispatchEvent type reg2 s1 in
    (es1 ++ es2, s2).
Proof.
  revert s. induction reg1 as [|[ty f] reg1 IH]; intros s; simpl.
  - by destruct (dispatchEvent type reg2 s).
  - destruct (ty =? type); [|apply IH].
    destruct (f s) as [[[]|e] s1]; [apply IH|].
    rewrite IH. destruct (dispatchEvent type reg1 s1) as [es1 s2].
    by destruct (dispatchEvent type reg2 s2).
Qed.

Lemma script_app (reg : listeners) :
  script dom builder reg = reg ++ script dom builder [].
Proof.
  unfold script, addEventListener. simpl. by rewrite <- (assoc_L (++)).
Qed.

Lemma dispatch_script type (s : S) :
  dispatchEvent type (script dom builder []) s
  = if type =? "DOMContentLoaded" then page_ready dom builder s else ([], s).
Proof.
  unfold page_ready, script, addEventListener. cbn [app dispatchEvent].
  rewrite (String.eqb_sym type).
  destruct ("DOMContentLoaded" =? type) eqn:Hty; [|done].
  by rewrite String.eqb_refl.
Qed.

End DispatchFacts.

(** X2: the script keeps the listeners registered before it: at an event
    they run first, in their order, and what they report is all that is
    reported; the two listeners of the script then run on the store the
    earlier listeners leave, and only for [DOMContentLoaded]. *)
Theorem script_runs_after_earlier_listeners {S R : Type}
    (dom : DomApi S R) (builder : DomBuilder S R)
    (reg : listeners) (type : string) (s : S) :
  dispatchEvent type (script dom builder reg) s
  = let '(es, s1) := dispatchEvent type reg s in
    if type =? "DOMContentLoaded"
    then (es, snd (page_ready dom builder s1))
    else (es, s1).
Proof.
  rewrite script_app, dispatchEvent_app.
  destruct (dispatchEvent type reg s) as [es s1].
  rewrite dispatch_script. destruct (type =? "DOMContentLoaded").
  - rewrite page_ready_eq. by rewrite app_nil_r.
  - by rewrite app_nil_r.
Qed.

(** ** The loop over the static list *)

Module LoopFacts.
Import Dom TreeFacts DomFacts Pruner PrunerFacts RepeatFacts.

Lemma visited_nil labels st : visited labels st [] = st.
Proof.
  unfold visited. simpl. by rewrite (right_id_L ∅ (∪)), with_detached_id.
Qed.

Lemma foldl_visited labels st done :
  StronglySorted not_above done →
  foldl (prune_step labels) st done = visited labels st done.
Proof.
  intros Hs. rewrite <- (visited_nil labels st) at 1.
  by rewrite prune_fold.
Qed.

Lemma text_of_visited labels st done a :
  Forall (λ x, not_above x a) done →
  text_of (visited labels st done) a = text_of st a.
Proof.
  intros Hdone. apply text_of_ext; [done|].
  intros r Hr. simpl. rewrite elem_of_union, elem_of_list_to_set.
  split; [|by left]. intros [?|Hin]; [done|].
  apply list_elem_of_omap in Hin as (x & Hx & Ht).
  apply target_list_item in Ht as (Hs & _ & _).
  eapply Forall_forall in Hdone; [|done].
  destruct Hdone. by eapply above_trans_r.
Qed.

Lemma closest_of_visited labels st done a :
  closest_of (visited labels st done) (ByType "li") a
  = closest_of st (ByType "li") a.
Proof.
  apply closest_of_ext; [done|].
  intros r Hr. simpl. rewrite elem_of_union, elem_of_list_to_set.
  split; [|by left]. intros [?|Hin]; [done|].
  apply list_elem_of_omap in Hin as (x & Hx & Ht).
  apply target_list_item in Ht as (_ & _ & Hli). congruence.
Qed.

Lemma isConnected_false st a :
  isConnected st a = false →
  ∃ r, r ≠ [] ∧ r `suffix_of` a ∧ r ∈ detached st.
Proof.
  induction a as [|i up IH]; simpl; [done|].
  intros [Hd|Hup]%andb_false_iff.
  - apply bool_decide_eq_false in Hd. exists (i :: up).
    split_and!; [done..|]. by destruct (decide (i :: up ∈ detached st)).
  - destruct (IH Hup) as (r & Hr & Hs & Hd). exists r.
    split_and!; [done|by apply suffix_cons_r|done].
Qed.

(** Between a node and its nearest matching ancestor no parent link is cut. *)
Lemma closest_of_below st s a l r :
  closest_of st s a = Some l →
  r `suffix_of` a → above l r → r ∉ detached st.
Proof.
  induction a as [|i up IH]; simpl; [done|].
  destruct (matches_simple s (childNodes_at (loaded st) up !! i)).
  - intros [= <-] Hr [Hl Hne]. destruct Hne. by apply (anti_symm suffix).
  - case_bool_decide as Hd; [done|]. intros Hl Hr Hlr.
    destruct r as [|j r]; [by destruct Hlr as [->%suffix_nil_inv ?]|].
    apply suffix_cons_inv in Hr as [[= -> ->]|Hr]; [done|by apply IH].
Qed.

(** Detaching the nearest list item of a node that is out of the document
    leaves every node as connected as it was. *)
Lemma isConnected_detach_stale st a l p :
  isConnected st a = false →
  closest_of st (ByType "li") a = Some l →
  isConnected (detach st l) p = isConnected st p.
Proof.
  intros Ha Hl.
  destruct (closest_of_Some _ _ _ _ Hl) as (Hla & Hne & _).
  rewrite detach_eq by done.
  destruct (isConnected st p) eqn:Hp.
  - apply isConnected_spec. intros q Hq Hqp. simpl.
    rewrite elem_of_union, elem_of_singleton. intros [->|Hd].
    + apply isConnected_false in Ha as (r & Hr & Hra & Hrd).
      destruct (suffix_weak_total r l a Hra Hla) as [Hrl|Hlr].
      * eapply isConnected_spec in Hp; [by apply Hp|done|by etrans].
      * destruct (decide (l = r)) as [->|Hneq].
        { eapply isConnected_spec in Hp; [by apply Hp|done..]. }
        by apply (closest_of_below st _ a l r Hl Hra).
    + by eapply isConnected_spec in Hp.
  - apply not_true_is_false. intros Hc.
    apply (isConnected_mono _ st p) in Hc; [congruence|]. simpl. set_solver.
Qed.

Lemma render_node_eq det p name classes ch :
  render_node det p (Element name classes ch)
  = Element name classes (render_forest det p 0 ch).
Proof.
  simpl. f_equal. generalize 0.
  induction ch as [|c ch IH]; intros i; simpl; [done|]. by rewrite IH.
Qed.

Lemma render_forest_ext s s' cs :
  (∀ q, isConnected s q = isConnected s' q) →
  Forall (λ n, ∀ p, isConnected s p = true →
                    render_node (detached s) p n
                    = render_node (detached s') p n) cs →
  ∀ p i, isConnected s p = true →
         render_forest (detached s) p i cs
         = render_forest (detached s') p i cs.
Proof.
  intros Hiff. induction 1 as [|c cs Hc _ IH]; intros p i Hp; simpl; [done|].
  rewrite IH by done. f_equal.
  pose proof (Hiff (i :: p)) as Hi. simpl in Hi.
  rewrite <- (Hiff p), Hp, !andb_true_r in Hi.
  destruct (decide (i :: p ∈ detached s)) as [Hd|Hd].
  - rewrite bool_decide_eq_true_2 by done.
    rewrite bool_decide_eq_false_2 in Hi by auto.
    symmetry in Hi. apply bool_decide_eq_false in Hi.
    rewrite bool_decide_eq_true_2; [done|]. by apply dec_stable.
  - rewrite bool_decide_eq_false_2 by done.
    rewrite bool_decide_eq_true_2 in Hi by done.
    symmetry in Hi. apply bool_decide_eq_true in Hi.
    rewrite bool_decide_eq_false_2 by done. f_equal.
    apply Hc. simpl. by rewrite Hp, bool_decide_eq_true_2.
Qed.

Lemma render_node_ext s s' n :
  (∀ q, isConnected s q = isConnected s' q) →
  ∀ p, isConnected s p = true →
       render_node (detached s) p n = render_node (detached s') p n.
Proof.
  intros Hiff. induction n as [| |name classes ch IH] using node_ind;
    intros p Hp; [done..|].
  rewrite !render_node_eq. f_equal. by apply render_forest_ext.
Qed.

(** Stores with the same tree and the same connected nodes show the same
    document. *)
Lemma document_ext s s' :
  loaded s = loaded s' →
  (∀ q, isConnected s q = isConnected s' q) →
  document s = document s'.
Proof.
  intros Hl Hiff. unfold document. rewrite Hl.
  apply render_forest_ext; [done| |done].
  apply Forall_forall. intros n _. by apply render_node_ext.
Qed.

Lemma prune_step_stale labels st a :
  isConnected st a = false →
  document (prune_step labels st a) = document st.
Proof.
  intros Ha. unfold prune_step.
  destruct (target labels st a) as [l|] eqn:Ht; [|done].
  apply target_Some in Ht as [_ Hl].
  apply document_ext.
  - rewrite detach_eq; [done|]. by apply closest_of_Some in Hl as (_ & ? & _).
  - intros q. by eapply isConnected_detach_stale.
Qed.

End LoopFacts.

Import LoopFacts.

(** X3: the removals made for the anchors visited so far never change what
    the callback reads for a later anchor of the static list: its text and
    its nearest enclosing list item are those of the page as it was when the
    list was taken.  So the first listener leaves the page as one removal of
    all the list items selected on the initial page does, and so does the
    second. *)
Theorem earlier_removals_leave_later_reads
    (builder : DomBuilder store ref) (st s : store) (done rest : list ref)
    (a : ref) :
  select st sidebar_anchors = done ++ a :: rest →
  forEach done (remove_if_dashboard_or_groups browser) st = (Normal tt, s) →
  text_of s a = text_of st a
  ∧ closest_of s (ByType "li") a = closest_of st (ByType "li") a
  ∧ snd (first_listener browser builder st)
    = with_detached st
        (detached st ∪ list_to_set (pruned_items first_labels st))
  ∧ snd (second_listener browser st)
    = with_detached st
        (detached st ∪ list_to_set (pruned_items second_labels st)).
Proof.
  intros Hsel Hrun.
  pose proof (select_sorted st sidebar_anchors) as Hs. rewrite Hsel in Hs.
  rewrite (forEach_browser _ _ first_callback_browser) in Hrun.
  injection Hrun as <-.
  rewrite foldl_visited by (by apply StronglySorted_app_1_l in Hs).
  rewrite first_listener_browser, second_listener_browser, !prune_eq.
  split_and!; [|apply closest_of_visited|done..].
  apply text_of_visited, Forall_forall. intros x Hx.
  eapply StronglySorted_app_1_elem_of; [done..|set_solver].
Qed.

Lemma earlier_removals_leave_later_reads_witness :
  let st := page [Element "ul" ["nav-sidebar"]
                    [Element "li" []
                       [link "Dashboard"; Element "ul" [] [item "Groups"]]]] in
  let s := snd (forEach [[0; 0; 0]] (remove_if_dashboard_or_groups browser) st) in
  (select st sidebar_anchors = [[0; 0; 0]] ++ [0; 0; 1; 0; 0] :: []
   ∧ forEach [[0; 0; 0]] (remove_if_dashboard_or_groups browser) st
     = (Normal tt, s))
  ∧ text_of s [0; 0; 1; 0; 0] = text_of st [0; 0; 1; 0; 0]
  ∧ closest_of s (ByType "li") [0; 0; 1; 0; 0] = Some [0; 1; 0; 0].
Proof.
  intros st s.
  assert (H1 : select st sidebar_anchors = [[0; 0; 0]] ++ [0; 0; 1; 0; 0] :: [])
    by (by vm_compute).
  assert (H2 : forEach [[0; 0; 0]] (remove_if_dashboard_or_groups browser) st
               = (Normal tt, s)) by (by vm_compute).
  destruct (earlier_removals_leave_later_reads no_builder st s _ _ _ H1 H2)
    as (Ht & Hc & _).
  split_and!; [exact H1|exact H2|exact Ht|].
  rewrite Hc. by vm_compute.
Defined.

(** X4: the callback called for an anchor that an earlier callback has
    already taken out of the document ends normally and leaves the document
    as it is: what it detaches is out of the document already. *)
Theorem callback_on_removed_anchor_keeps_document (st : store) (a : ref) :
  isConnected st a = false →
  fst (remove_if_dashboard_or_groups browser a st) = Normal tt
  ∧ document (snd (remove_if_dashboard_or_groups browser a st)) = document st
  ∧ fst (remove_if_dashboard browser a st) = Normal tt
  ∧ document (snd (remove_if_dashboard browser a st)) = document st.
Proof.
  intros Ha. rewrite first_callback_browser, second_callback_browser.
  cbn [fst snd]. split_and!; [done| |done|]; by apply prune_step_stale.
Qed.

Lemma callback_on_removed_anchor_keeps_document_witness :
  let st := snd (remove_if_dashboard_or_groups browser [0; 0; 0]
                   (page [Element "ul" ["nav-sidebar"]
                            [Element "li" []
                               [link "Dashboard";
                                Element "ul" [] [item "Groups"]]]])) in
  isConnected st [0; 0; 1; 0; 0] = false
  ∧ ([0; 1; 0; 0] ∈ detached
       (snd (remove_if_dashboard_or_groups browser [0; 0; 1; 0; 0] st)))
  ∧ document (snd (remove_if_dashboard_or_groups browser [0; 0; 1; 0; 0] st))
    = document st.
Proof.
  intros st.
  assert (H : isConnected st [0; 0; 1; 0; 0] = false) by (by vm_compute).
  split_and!; [exact H|by_evaluation|].
  exact (proj1 (proj2 (callback_on_removed_anchor_keeps_document st _ H))).
Defined.

(** X5: on a page in which no link lies inside another link the second
    listener finds nothing left to remove after the first: the page after
    both listeners is the page after the first alone. *)
Theorem second_listener_is_redundant
    (builder : DomBuilder store ref) (st : store) :
  no_nested_anchors (loaded st) = true →
  page_ready browser builder st = ([], snd (first_listener browser builder st))
  ∧ second_listener browser (snd (first_listener browser builder st))
    = (Normal tt, snd (first_listener browser builder st)).
Proof.
  intros Hnn.
  rewrite page_ready_browser, first_listener_browser. cbn [snd].
  rewrite second_listener_browser.
  by rewrite prune_absorbs; [|apply label_match_second_first|].
Qed.

Lemma second_listener_is_redundant_witness :
  no_nested_anchors (loaded (page sidebar3)) = true
  ∧ page_ready browser no_builder (page sidebar3)
    = ([], snd (first_listener browser no_builder (page sidebar3))).
Proof.
  assert (H : no_nested_anchors (loaded (page sidebar3)) = true)
    by (by vm_compute).
  split; [exact H|].
  exact (proj1 (second_listener_is_redundant no_builder _ H)).
Defined.

(** X6: on the browser neither [try] block throws, so nothing is ever
    logged; the script leaves the tree of nodes as loaded, cuts parent links
    of [li] elements only, and never puts a node back into the document. *)
Theorem browser_run_is_quiet (builder : DomBuilder store ref) (st : store) :
  let st' := snd (page_ready browser builder st) in
  fst (first_body browser builder st) = Normal tt
  ∧ fst (second_body browser st) = Normal tt
  ∧ console st' = console st
  ∧ loaded st' = loaded st
  ∧ detached st ⊆ detached st'
  ∧ (∀ r, r ∈ detached st' →
          r ∈ detached st
          ∨ matches_simple (ByType "li") (node_at (loaded st) r) = true)
  ∧ (∀ p, isConnected st' p = true → isConnected st p = true).
Proof.
  rewrite page_ready_browser. cbn [snd].
  assert (Hsub : detached st
                 ⊆ detached (prune second_labels (prune first_labels st))).
  { etrans; apply detached_prune_subseteq. }
  split_and!.
  - unfold first_body, bind.
    by rewrite first_pass_browser, find_exams_ul_browser.
  - unfold second_body. by rewrite second_pass_browser.
  - by rewrite !console_prune.
  - by rewrite !loaded_prune.
  - done.
  - intros r [Hr|Hr]%detached_prune_list_item.
    + by apply detached_prune_list_item in Hr.
    + right. by rewrite loaded_prune in Hr.
  - intros p. by apply isConnected_mono.
Qed.

Lemma browser_run_is_quiet_witness :
  let st' := snd (page_ready browser no_builder (page sidebar3)) in
  ([0; 0] ∈ detached st' ∧ isConnected st' [0; 2; 0] = true)
  ∧ matches_simple (ByType "li") (node_at sidebar3 [0; 0]) = true
  ∧ isConnected (page sidebar3) [0; 2; 0] = true.
Proof.
  intros st'.
  assert (H1 : [0; 0] ∈ detached st') by by_evaluation.
  assert (H2 : isConnected st' [0; 2; 0] = true) by (by vm_compute).
  destruct (browser_run_is_quiet no_builder (page sidebar3))
    as (_ & _ & _ & _ & _ & Hli & Hc).
  split_and!; [exact H1|exact H2| |exact (Hc _ H2)].
  destruct (Hli _ H1) as [Hd|Hd]; [|exact Hd].
  by apply not_elem_of_empty in Hd.
Defined.

(** X7: the second listener removes for the label "dashboard" only: a node
    is in the document after it exactly when it was in the document and lies
    in no list item selected for that label, that is, in no nearest
    enclosing [li] of a sidebar anchor whose text normalises to "dashboard";
    so when the text of no sidebar anchor does, the page is left as it is,
    whatever else the sidebar holds. *)
Theorem second_listener_removes_dashboard_only (st : store) :
  fst (second_listener browser st) = Normal tt
  ∧ (∀ t, label_match second_labels t
          = (Js.toLowerCase (Js.trim t) =? "dashboard"))
  ∧ (∀ p, isConnected (snd (second_listener browser st)) p
          = isConnected st p && negb (inside (pruned_items second_labels st) p))
  ∧ (∀ p, inside (pruned_items second_labels st) p = true
          ↔ ∃ a l, a ∈ select st sidebar_anchors
                   ∧ Js.toLowerCase (Js.trim (text_of st a)) = "dashboard"
                   ∧ closest_of st (ByType "li") a = Some l
                   ∧ l `suffix_of` p)
  ∧ (Forall (λ a, Js.toLowerCase (Js.trim (text_of st a)) ≠ "dashboard")
       (select st sidebar_anchors) →
     second_listener browser st = (Normal tt, st)).
Proof.
  assert (Hm : ∀ t, label_match second_labels t
                    = (Js.toLowerCase (Js.trim t) =? "dashboard")).
  { intros t. unfold label_match, second_labels. simpl. apply orb_false_r. }
  rewrite second_listener_browser. split_and!; [done..| | |].
  - intros p. cbn [snd].
    destruct (isConnected (prune second_labels st) p) eqn:Hp.
    + apply isConnected_prune in Hp as [-> ->]. done.
    + apply not_true_iff_false in Hp. rewrite isConnected_prune in Hp.
      destruct (isConnected st p), (inside _ p); naive_solver.
  - intros p. rewrite inside_true. setoid_rewrite elem_of_pruned_items.
    setoid_rewrite Hm. setoid_rewrite String.eqb_eq. naive_solver.
  - intros Hno. f_equal. apply prune_id. intros a Ha.
    eapply Forall_forall in Hno; [|done]. unfold target.
    rewrite Hm. by apply String.eqb_neq in Hno as ->.
Qed.

Lemma second_listener_removes_dashboard_only_witness :
  let st := page [Element "ul" ["nav-sidebar"] [item "Groups"; item "Reports"]] in
  let st3 := page sidebar3 in
  Forall (λ a, Js.toLowerCase (Js.trim (text_of st a)) ≠ "dashboard")
    (select st sidebar_anchors)
  ∧ second_listener browser st = (Normal tt, st)
  ∧ isConnected (snd (second_listener browser st3)) [0; 0; 0] = false
  ∧ isConnected (snd (second_listener browser st3)) [0; 1; 0] = true.
Proof.
  intros st st3.
  assert (H : Forall (λ a, Js.toLowerCase (Js.trim (text_of st a)) ≠ "dashboard")
                (select st sidebar_anchors)) by by_evaluation.
  destruct (second_listener_removes_dashboard_only st) as (_ & _ & _ & _ & Hid).
  destruct (second_listener_removes_dashboard_only st3) as (_ & _ & Hc & _).
  split_and!; [exact H|exact (Hid H)| |]; rewrite Hc; by vm_compute.
Defined.

(** ** The section locator and [addItem] *)

Module LocatorFacts.
Import Dom TreeFacts DomFacts Pruner PrunerFacts.

Lemma next_element_sibling_Some st h u :
  next_element_sibling st h = Some u →
  ∃ i j up, h = i :: up ∧ u = j :: up ∧ (i < j)%nat
            ∧ (h ∉ detached st) ∧ (u ∉ detached st)
            ∧ is_element (node_at (loaded st) u) = true.
Proof.
  destruct h as [|i up]; simpl; [done|].
  case_bool_decide as Hd; [done|].
  intros Hu%head_Some_elem_of.
  apply list_elem_of_filter in Hu as [Hu Hin].
  apply andb_True in Hu as [He Hnd]. apply bool_decide_spec in Hnd.
  apply list_elem_of_fmap in Hin as (j & -> & Hj).
  apply elem_of_seq in Hj.
  exists i, j, up. split_and!; [done..|lia|done|done|by apply Is_true_true].
Qed.

Lemma headers_none st :
  select st (Simple (ByClass "nav-sidebar")) = [] →
  select st sidebar_headers = [].
Proof.
  intros Hno. apply elem_of_nil_inv. intros a (q & Hq & _)%select_ancestor.
  rewrite Hno in Hq. by apply elem_of_nil in Hq.
Qed.

End LocatorFacts.

(** X8: when the section locator finds an insertion target, the target is
    an element of the document that carries [nav-treeview] or
    [nav-sidebar]; when no element of the document carries [nav-sidebar],
    it finds none. *)
Theorem insertion_target_is_listed (st : store) (u : ref) :
  fst (find_exams_ul browser st) = Normal (Some u) →
  isConnected st u = true
  ∧ is_element (node_at (loaded st) u) = true
  ∧ (has_class st u "nav-treeview" = true ∨ has_class st u "nav-sidebar" = true)
  ∧ select st (Simple (ByClass "nav-sidebar")) ≠ [].
Proof.
  rewrite find_exams_ul_browser. cbn [fst]. intros [= Hu].
  assert (Hfb : head (select st (Simple (ByClass "nav-sidebar"))) = Some u →
                isConnected st u = true
                ∧ is_element (node_at (loaded st) u) = true
                ∧ (has_class st u "nav-treeview" = true
                   ∨ has_class st u "nav-sidebar" = true)).
  { intros (_ & Hc & Hm)%head_Some_elem_of%elem_of_select. simpl in Hm.
    split_and!; [done| |by right].
    unfold matches_simple in Hm.
    by destruct (node_at (loaded st) u) as [[]|]. }
  assert (Hne : select st (Simple (ByClass "nav-sidebar")) ≠ []).
  { intros Hno. unfold spec_insertion_target in Hu.
    by rewrite (LocatorFacts.headers_none st Hno), Hno in Hu. }
  split_and!; [..|done]; unfold spec_insertion_target in Hu;
    destruct (head (filter _ (select st sidebar_headers))) as [h|] eqn:Hh;
    try (by apply Hfb);
    (destruct (next_element_sibling st h) as [v|] eqn:Hv; [|by apply Hfb]);
    (destruct (has_class st v "nav-treeview") eqn:Hcl; [|by apply Hfb]);
    injection Hu as ->;
    apply head_Some_elem_of, list_elem_of_filter in Hh as [_ Hh];
    apply elem_of_select in Hh as (_ & Hhc & _);
    apply LocatorFacts.next_element_sibling_Some in Hv
      as (i & j & up & -> & -> & _ & _ & Hnd & He).
  - simpl in *. apply andb_prop in Hhc as [_ ->].
    by rewrite bool_decide_eq_true_2.
  - done.
  - by left.
Qed.

Lemma insertion_target_is_listed_witness :
  fst (find_exams_ul browser (page exams_section)) = Normal (Some [3; 0])
  ∧ isConnected (page exams_section) [3; 0] = true
  ∧ has_class (page exams_section) [3; 0] "nav-treeview" = true.
Proof.
  assert (H : fst (find_exams_ul browser (page exams_section))
              = Normal (Some [3; 0])) by (by vm_compute).
  split_and!; [exact H| |by vm_compute].
  exact (proj1 (insertion_target_is_listed _ _ H)).
Defined.

(** X9: called while [ul] is null, [addItem] never ends normally: the item
    it has built cannot be appended.  On a page without element that
    carries [nav-sidebar] the section locator leaves [ul] null. *)
Theorem addItem_needs_a_target
    (builder : DomBuilder store ref) (st : store)
    (text href : string) (icon : option string) :
  select st (Simple (ByClass "nav-sidebar")) = [] →
  find_exams_ul browser st = (Normal None, st)
  ∧ (∀ s, fst (addItem builder None text href icon s) ≠ Normal tt).
Proof.
  intros Hno. split.
  - rewrite find_exams_ul_browser. f_equal. f_equal.
    unfold spec_insertion_target.
    by rewrite (LocatorFacts.headers_none st Hno), Hno.
  - intros s. unfold addItem, bind, throw.
    destruct (createElement builder "li" s) as [[li|e] s1]; [|done].
    destruct (set_className builder li "nav-item" s1) as [[[]|e] s2]; [|done].
    by destruct (set_innerHTML builder li _ s2) as [[[]|e] s3].
Qed.

Lemma addItem_needs_a_target_witness :
  select (page no_sidebar) (Simple (ByClass "nav-sidebar")) = []
  ∧ find_exams_ul browser (page no_sidebar) = (Normal None, page no_sidebar).
Proof.
  assert (H : select (page no_sidebar) (Simple (ByClass "nav-sidebar")) = [])
    by (by vm_compute).
  split; [exact H|].
  exact (proj1 (addItem_needs_a_target no_builder _ "Import" "/import" None H)).
Defined.
